(** * Sun Moon Tracker: the ephemeris solver, the readiness gate and the
      screen projection helper

    A shallow embedding of the tracker script (the Lens Studio script that
    defines [getSun], [getMoon] and [worldToScreen]) and the theorems that
    relate it to its written specification.

    Modelling conventions.
    - A JavaScript number is modelled as a real number: arithmetic is exact,
      there is no rounding, no NaN and no signed zero.  The constants are the
      decimal literals of the script, digit for digit.
    - [Math.sin], [Math.cos], [Math.tan], [Math.asin] are the functions of the
      standard library of reals; [Math.atan2] and the remainder operator [%]
      are defined in module [JS] below.  The solvers give [Math.asin] an
      argument in [-1, 1] only (lemma [getAzAlt_asin_argument] for the
      altitude), where the library function is the arcsine.
    - A [Date] is its time value, an integer number of milliseconds since the
      Unix epoch.
    - The script runs to completion on each call from the caller or the
      host; a run is a list of such calls ([Event]), and what the script does
      to the outside is a list of [Effect]s.  A function given by the caller
      is an identifier. *)

From Stdlib Require Import Reals Lra Lia ZArith Machin Zfloor List String Bool.
Import ListNotations.

#[local] Open Scope R_scope.

(* ================================================================== *)
(** ** JavaScript numeric primitives *)
(* ================================================================== *)

Module JS.

(** [Math.atan2(y, x)]: the angle of the point [(x, y)], in (-PI, PI]. *)
Definition atan2 (y x : R) : R :=
  if Rlt_dec 0 x then atan (y / x)
  else if Rlt_dec x 0 then
    if Rle_dec 0 y then atan (y / x) + PI else atan (y / x) - PI
  else if Rlt_dec 0 y then PI / 2
  else if Rlt_dec y 0 then - (PI / 2)
  else 0.

(** Rounding towards zero. *)
Definition trunc (x : R) : Z :=
  if Rle_dec 0 x then Zfloor x else (- Zfloor (- x))%Z.

(** [a % b]: the remainder of the truncated division; it has the sign of
    the dividend. *)
Definition rem (a b : R) : R := a - b * IZR (trunc (a / b)).

(** [x < y] and truthiness of a number, as booleans. *)
Definition ltb (x y : R) : bool := if Rlt_dec x y then true else false.
Definition gtb (x y : R) : bool := ltb y x.
Definition truthy (x : R) : bool := if Req_dec_T x 0 then false else true.

End JS.

(* ================================================================== *)
(** ** Time and coordinate helpers (the end of the script) *)
(* ================================================================== *)

Definition dayMs : R := 1000 * 60 * 60 * 24.
Definition J1970 : R := 2440588.
Definition J2000 : R := 2451545.
Definition DEG_TO_RAD : R := 0.01745329251.
Definition RAD_TO_DEG : R := 57.2957795131.

Definition degToRad (deg : R) : R := deg * DEG_TO_RAD.
Definition radToDeg (rad : R) : R := rad * RAD_TO_DEG.

(** A [Date], by its time value in milliseconds. *)
Definition Date := Z.
Definition getTime_of (date : Date) : R := IZR date.

Definition toJulian (date : Date) : R := getTime_of date / dayMs - 0.5 + J1970.
Definition toDays (date : Date) : R := toJulian date - J2000.

Definition getSiderealTime (d lw : R) : R :=
  degToRad (280.16 + 360.9856235 * d) - lw.

Record AzAlt := mkAzAlt { az_rad : R; alt_rad : R }.

Definition getAzAlt (H phi dec : R) : AzAlt :=
  let altitude :=
    asin (sin phi * sin dec + cos phi * cos dec * cos H) in
  let azimuth :=
    JS.atan2 (sin H) (cos H * sin phi - tan dec * cos phi) in
  mkAzAlt azimuth altitude.

(** The value returned by both solvers. *)
Record SkyPosition := mkSky { azimuth : R; altitude : R; distance : R }.

(* ================================================================== *)
(** ** The Sun *)
(* ================================================================== *)

Module Sun.

Definition earthTiltRad : R := degToRad 23.44.
Definition AU_IN_CM : R := 1.495978707e13.

Definition getSolarMeanAnomaly (d : R) : R :=
  degToRad (357.5291 + 0.98560028 * d).

Definition getEquationOfCenter (M : R) : R :=
  degToRad (1.9148 * sin M + 0.02 * sin (2 * M) + 0.0003 * sin (3 * M)).

Definition getEclipticLongitude (M C : R) : R :=
  M + C + degToRad 102.9372 + PI.

Definition getDeclination (L : R) : R :=
  asin (sin L * sin earthTiltRad).

Definition getRightAscension (L : R) : R :=
  JS.atan2 (sin L * cos earthTiltRad) (cos L).

Definition getHourAngle (siderealTime rightAscension : R) : R :=
  siderealTime - rightAscension.

Definition getSunDistanceAU (M C : R) : R :=
  1.00014 - 0.01671 * cos M - 0.00014 * cos (2 * M + C).

End Sun.

Definition getSunPosition (date : Date) (latitude longitude : R) : SkyPosition :=
  let d := toDays date in
  let lw := degToRad (- longitude) in
  let phi := degToRad latitude in
  let M := Sun.getSolarMeanAnomaly d in
  let C := Sun.getEquationOfCenter M in
  let L := Sun.getEclipticLongitude M C in
  let dec := Sun.getDeclination L in
  let ra := Sun.getRightAscension L in
  let sidereal := getSiderealTime d lw in
  let H := Sun.getHourAngle sidereal ra in
  let distance := Sun.getSunDistanceAU M C in
  let aa := getAzAlt H phi dec in
  mkSky (JS.rem (radToDeg (az_rad aa) + 180) 360)
        (radToDeg (alt_rad aa))
        (distance * Sun.AU_IN_CM).

(* ================================================================== *)
(** ** The Moon *)
(* ================================================================== *)

Module Moon.

Record Coords := mkCoords { ra : R; dec : R; dist : R }.

Definition getMoonCoords (d : R) : Coords :=
  let L := degToRad (218.316 + 13.176396 * d) in
  let M := degToRad (134.963 + 13.064993 * d) in
  let dist := 385001 - 20905 * cos M in
  let l := L + degToRad (6.289 * sin M) in
  let b := degToRad (5.128 * sin (degToRad (93.272 + 13.229350 * d))) in
  let ra :=
    JS.atan2 (sin l * cos (degToRad 23.44) - tan b * sin (degToRad 23.44))
             (cos l) in
  let dec :=
    asin (sin b * cos (degToRad 23.44)
          + cos b * sin (degToRad 23.44) * sin l) in
  mkCoords ra dec dist.

End Moon.

Definition getMoonPosition (date : Date) (latitude longitude : R) : SkyPosition :=
  let d := toDays date in
  let lw := degToRad (- longitude) in
  let phi := degToRad latitude in
  let moon := Moon.getMoonCoords d in
  let sidereal := getSiderealTime d lw in
  let H := sidereal - Moon.ra moon in
  let aa := getAzAlt H phi (Moon.dec moon) in
  mkSky (JS.rem (radToDeg (az_rad aa) + 180) 360)
        (radToDeg (alt_rad aa))
        (Moon.dist moon * 100000).

(* ================================================================== *)
(** ** The reference algorithm of the specification *)
(* ================================================================== *)

(** The ephemeris as the specification words it (section 4.1, steps 1 to 6),
    kept apart from the definitions above, which follow the script.  An angle
    written [x] degrees in the specification is [deg x] here: the
    specification does not fix the conversion and names it a degree/radian
    utility, so the script's utilities [degToRad] and [radToDeg] are used.
    [mod] is the remainder operator of the script's language. *)
Module Reference.

Definition deg (x : R) : R := degToRad x.
Definition in_degrees (x : R) : R := radToDeg x.


(** Step 4: local sidereal time, the longitude negated before use. *)
Definition sidereal (d longitude : R) : R :=
  deg 280.16 + deg 360.9856235 * d - deg (- longitude).

(** Step 5. *)
Definition altitude_of (H phi delta : R) : R :=
  asin (sin phi * sin delta + cos phi * cos delta * cos H).
Definition azimuth_of (H phi delta : R) : R :=
  JS.atan2 (sin H) (cos H * sin phi - tan delta * cos phi).

(** Step 6. *)
Definition report (H phi delta cm : R) : SkyPosition :=
  mkSky (JS.rem (in_degrees (azimuth_of H phi delta) + 180) 360)
        (in_degrees (altitude_of H phi delta))
        cm.

(** Step 2 for the Sun.  [half_turn] is the angle the specification writes
    180 degrees in the ecliptic longitude. *)
Section SunReference.
Variable half_turn : R.

Definition sun_L (M C : R) : R := M + C + deg 102.9372 + half_turn.

End SunReference.




End Reference.

(* ================================================================== *)
(** ** Host vectors *)
(* ================================================================== *)

(** [vec2] and [vec3] of the host, with the operations the script calls. *)
Record vec2 := mkVec2 { x2 : R; y2 : R }.
Record vec3 := mkVec3 { vx : R; vy : R; vz : R }.

Module Vec3.
Definition up : vec3 := mkVec3 0 1 0.
Definition right : vec3 := mkVec3 1 0 0.
Definition dot (a b : vec3) : R := vx a * vx b + vy a * vy b + vz a * vz b.
Definition cross (a b : vec3) : vec3 :=
  mkVec3 (vy a * vz b - vz a * vy b)
         (vz a * vx b - vx a * vz b)
         (vx a * vy b - vy a * vx b).
Definition sub (a b : vec3) : vec3 :=
  mkVec3 (vx a - vx b) (vy a - vy b) (vz a - vz b).
Definition uniformScale (a : vec3) (k : R) : vec3 :=
  mkVec3 (vx a * k) (vy a * k) (vz a * k).
Definition length (a : vec3) : R := sqrt (dot a a).
Definition normalize (a : vec3) : vec3 := uniformScale a (/ length a).
End Vec3.

(** [tracking.getTransform()]: the part of the device transform the script
    reads. *)
Record Transform := mkTransform {
  forward : vec3;
  up : vec3;
  (** [getInvertedWorldTransform().multiplyPoint] *)
  invertedWorldPoint : vec3 -> vec3
}.

(** The camera component: [worldSpaceToScreenSpace]. *)
Record Camera := mkCamera { worldSpaceToScreenSpace : vec3 -> vec2 }.

(** [script.deviceTracking], possibly unset, and the camera component found
    on its scene object, possibly absent. *)
Record DeviceTracking := mkTracking {
  getTransform : Transform;
  getCameraComponent : option Camera
}.

(* ================================================================== *)
(** ** Helpers of the script *)
(* ================================================================== *)

(** What a call does: it returns a value or throws. *)
Inductive Outcome (A : Type) : Type :=
| Returned (a : A)
| Thrown (msg : string).
Arguments Returned {A} a.
Arguments Thrown {A} msg.

(** [const cam = tracking ? tracking.getSceneObject().getComponent(..) : null] *)
Definition cam (tracking : option DeviceTracking) : option Camera :=
  match tracking with
  | Some t => getCameraComponent t
  | None => None
  end.

Record ScreenSpaceInfo := mkScreen { position : vec2; isInFront : bool }.

(** [worldToScreen]; [None] is [undefined]. *)
Definition worldToScreen (tracking : option DeviceTracking) (worldPosition : vec3)
  : Outcome (option ScreenSpaceInfo) :=
  match cam tracking with
  | None => Returned None
  | Some c =>
    match tracking with
    | None => Thrown "TypeError"
    | Some t =>
      let zPos := invertedWorldPoint (getTransform t) worldPosition in
      let isInFront := JS.ltb (vz zPos) 0 in
      let position := worldSpaceToScreenSpace c worldPosition in
      let position :=
        mkVec2 ((x2 position - 0.5) * 2) ((1 - y2 position - 0.5) * 2) in
      Returned (Some (mkScreen position isInFront))
    end
  end.

Definition rotateY (vec : vec3) (degrees : R) : vec3 :=
  let rad := degToRad degrees in
  let cos := cos rad in
  let sin := sin rad in
  mkVec3 (vx vec * cos - vz vec * sin) (vy vec) (vx vec * sin + vz vec * cos).

Definition orbDirection (azimuthDeg altitudeDeg : R) : vec3 :=
  let az := degToRad azimuthDeg in
  let alt := degToRad altitudeDeg in
  let x := cos alt * sin az in
  let y := sin alt in
  let z := - cos alt * cos az in
  mkVec3 x y z.

(** [remap], called with all five arguments (the defaults for a missing
    [low2] or [high2] are not used by the script). *)
Definition remap (value low1 high1 low2 high2 : R) : R :=
  low2 + (high2 - low2) * (value - low1) / (high1 - low1).

(* ================================================================== *)
(** ** The readiness gate and the orientation pipeline *)
(* ================================================================== *)

(** Settings of the script. *)
Definition initialWait : R := 1.
Definition headingLifetime : R := 0.15.
Definition flipHeadingOnSpectacles : bool := true.
Definition awaitUpright : bool := true.
Definition uprightThreshold : R := 0.7.
Definition tiltHeadingOffset : R := 75.

(** Messages. *)
Definition title : string := "[SunMoonTracker] ".
Definition noDeviceTracking : string := "No DeviceTracking component selected!".
Definition noCallback : string := "No onSuccess callback given!".
Definition alreadyActive : string := "Aborted because a search is already active.".

(** The two entries of the [OrbType] table.  Their mutable [isSearching]
    fields live in the state below. *)
Module OrbType.
Inductive t := Sun | Moon.
Definition name (o : t) : string :=
  match o with Sun => "Sun" | Moon => "Moon" end.
Definition getPosition (o : t) : Date -> R -> R -> SkyPosition :=
  match o with Sun => getSunPosition | Moon => getMoonPosition end.
End OrbType.

(** A position delivered by the location service. *)
Module Geo.
Record Position := mkPosition {
  latitude : R;
  longitude : R;
  altitude : R;
  horizontalAccuracy : R;
  verticalAccuracy : R
}.
End Geo.

(** The [info] object handed to [onSuccess].  The fields [direction],
    [directionalRot] and [position] of the script are obtained from
    [deviceVec], [fwdAngle] and [distance] by the quaternion operations of the
    host ([quat.angleAxis], [multiplyVec3], [quat.lookAt], [uniformScale]);
    the record keeps their three arguments. *)
Module Info.
Record t := mk {
  deviceVec : vec3;
  fwdAngle : R;
  azimuth : R;
  altitude : R;
  distance : R;
  userHeading : R;
  userLatitude : R;
  userLongitude : R;
  horizontalAccuracy : R;
  verticalAccuracy : R;
  userAltitude : R;
  date : Date;
  name : string
}.
End Info.

(** A function supplied by the caller, by an identifier. *)
Definition Callback := nat.

(** What a call of [getOrb] has registered with the host and not yet
    removed. *)
Inductive Phase :=
| AwaitLensStart   (* [initialWaitEvent] is bound *)
| AwaitPosition    (* [getCurrentPosition] was called, no answer yet *)
| AwaitHeading     (* [awaitingHeading] is bound *)
| Finished.        (* nothing of this call is registered any more *)

(** The variables closed over by one call of [getOrb]. *)
Record Request := mkRequest {
  orbType : OrbType.t;
  onSuccess : Callback;
  onFail : option Callback;
  foundPosition : option Geo.Position;
  phase : Phase
}.

(** The script's variables and what it reads from the host. *)
Record State := mkState {
  now : R;                         (* [getTime()], seconds *)
  today : Date;                    (* [new Date()] *)
  transform : Transform;           (* [tracking.getTransform()] *)
  specs : bool;                    (* [deviceInfoSystem.isSpectacles()] *)
  sunSearching : bool;             (* [OrbType.Sun.isSearching] *)
  moonSearching : bool;            (* [OrbType.Moon.isSearching] *)
  locationService : bool;          (* has the service been created *)
  foundHeading : option R;
  foundHeadingTime : option R;
  tilt : option R;
  frontCameraFlip : option bool;
  requests : list Request          (* one closure per accepted call *)
}.

(** What a step does to the outside. *)
Inductive Effect :=
| CallOnSuccess (cb : Callback) (info : Info.t)
| CallOnFail (cb : Callback) (err : string)
| CreateLocationService
| GetCurrentPosition (rid : nat)
| Throw (msg : string).

Definition isSearching (s : State) (o : OrbType.t) : bool :=
  match o with OrbType.Sun => sunSearching s | OrbType.Moon => moonSearching s end.

Definition set_isSearching (o : OrbType.t) (b : bool) (s : State) : State :=
  match o with
  | OrbType.Sun =>
    mkState (now s) (today s) (transform s) (specs s) b (moonSearching s)
            (locationService s) (foundHeading s) (foundHeadingTime s) (tilt s)
            (frontCameraFlip s) (requests s)
  | OrbType.Moon =>
    mkState (now s) (today s) (transform s) (specs s) (sunSearching s) b
            (locationService s) (foundHeading s) (foundHeadingTime s) (tilt s)
            (frontCameraFlip s) (requests s)
  end.

Definition set_locationService (b : bool) (s : State) : State :=
  mkState (now s) (today s) (transform s) (specs s) (sunSearching s)
          (moonSearching s) b (foundHeading s) (foundHeadingTime s) (tilt s)
          (frontCameraFlip s) (requests s).

Definition set_heading (h t : R) (s : State) : State :=
  mkState (now s) (today s) (transform s) (specs s) (sunSearching s)
          (moonSearching s) (locationService s) (Some h) (Some t) (tilt s)
          (frontCameraFlip s) (requests s).

Definition set_tilt (a : R) (s : State) : State :=
  mkState (now s) (today s) (transform s) (specs s) (sunSearching s)
          (moonSearching s) (locationService s) (foundHeading s)
          (foundHeadingTime s) (Some a) (frontCameraFlip s) (requests s).

Definition set_frontCameraFlip (b : bool) (s : State) : State :=
  mkState (now s) (today s) (transform s) (specs s) (sunSearching s)
          (moonSearching s) (locationService s) (foundHeading s)
          (foundHeadingTime s) (tilt s) (Some b) (requests s).

Definition set_host (t : R) (d : Date) (tr : Transform) (s : State) : State :=
  mkState t d tr (specs s) (sunSearching s) (moonSearching s)
          (locationService s) (foundHeading s) (foundHeadingTime s) (tilt s)
          (frontCameraFlip s) (requests s).

Definition set_requests (rs : list Request) (s : State) : State :=
  mkState (now s) (today s) (transform s) (specs s) (sunSearching s)
          (moonSearching s) (locationService s) (foundHeading s)
          (foundHeadingTime s) (tilt s) (frontCameraFlip s) rs.

Definition set_phase (p : Phase) (rq : Request) : Request :=
  mkRequest (orbType rq) (onSuccess rq) (onFail rq) (foundPosition rq) p.

Definition set_foundPosition (p : Geo.Position) (rq : Request) : Request :=
  mkRequest (orbType rq) (onSuccess rq) (onFail rq) (Some p) (phase rq).

Fixpoint store (rid : nat) (rq : Request) (rs : list Request) : list Request :=
  match rs, rid with
  | [], _ => []
  | _ :: rest, O => rq :: rest
  | r :: rest, S n => r :: store n rq rest
  end.

(** [checkTimeStamp]; an undefined timestamp makes the difference NaN and
    the comparison false. *)
Definition checkTimeStamp (s : State) (t : option R) (threshold : R) : bool :=
  match t with
  | Some t => JS.ltb (now s - t) threshold
  | None => false
  end.

(** The angle [checkTilt] measures. *)
Definition offsetAngle (tr : Transform) : R :=
  let fwd := forward tr in
  let upNorm := up tr in
  let worldUp := Vec3.up in
  let worldUp :=
    if JS.gtb (Rabs (Vec3.dot fwd worldUp)) 0.99 then Vec3.right else worldUp in
  let refRight := Vec3.normalize (Vec3.cross fwd worldUp) in
  let refUp := Vec3.normalize (Vec3.cross refRight fwd) in
  let projectedUp :=
    Vec3.normalize
      (Vec3.sub upNorm (Vec3.uniformScale fwd (Vec3.dot fwd upNorm))) in
  let dot := Vec3.dot refUp projectedUp in
  let det := Vec3.dot refRight projectedUp in
  JS.atan2 det dot.

(** [checkTilt]: stores the angle, answers whether it is over the threshold
    ([undefined] is [false]). *)
Definition checkTilt (s : State) : bool * State :=
  if negb awaitUpright then (false, s)
  else
    let a := offsetAngle (transform s) in
    (JS.gtb (Rabs a) uprightThreshold, set_tilt a s).

(** [isReady], with the short circuit of [&&]. *)
Definition isReady (s : State) : bool * State :=
  match foundHeading s with
  | None => (false, s)
  | Some h =>
    if JS.truthy h then
      if checkTimeStamp s (foundHeadingTime s) headingLifetime then
        let '(tilted, s') := checkTilt s in (negb tilted, s')
      else (false, s)
    else (false, s)
  end.

(** The working copy of the heading in [interpretTrackingData]: front camera
    swap, Spectacles flip, tilt offset. *)
Definition workingHeading (s : State) (foundHeading : R) : R :=
  let heading := foundHeading in
  let heading :=
    match frontCameraFlip s with
    | Some true => heading * -1
    | _ => heading
    end in
  let heading :=
    if specs s && flipHeadingOnSpectacles then heading + 180 else heading in
  match tilt s with
  | Some tilt =>
    if JS.truthy tilt then
      let tiltOffset :=
        remap tilt (- uprightThreshold) uprightThreshold
              ((- tiltHeadingOffset / 2) * uprightThreshold)
              ((tiltHeadingOffset / 2) * uprightThreshold) in
      heading - tiltOffset
    else heading
  | None => heading
  end.

(** [interpretTrackingData], for the closure [rq].  It runs only after
    [isReady] answered true, so a heading is stored; a call without a stored
    heading or position is reported as a throw. *)
Definition interpretTrackingData (s : State) (rq : Request)
  : State * list Effect :=
  let s := set_isSearching (orbType rq) false s in
  match foundHeading s, foundPosition rq with
  | Some h, Some p =>
    let heading := workingHeading s h in
    let date := today s in
    let lat := Geo.latitude p in
    let long := Geo.longitude p in
    let alt := Geo.altitude p in
    let orbSkyLocation := OrbType.getPosition (orbType rq) date lat long in
    let azimuth := azimuth orbSkyLocation in
    let altitude := altitude orbSkyLocation in
    let distance := distance orbSkyLocation in
    let localDir :=
      orbDirection
        (match frontCameraFlip s with
         | Some true => 180 - azimuth
         | _ => azimuth
         end)
        altitude in
    let deviceVec := rotateY localDir (- heading) in
    let fwd := forward (transform s) in
    let fwdAngle := JS.atan2 (vx fwd) (vz fwd) in
    let info :=
      Info.mk deviceVec fwdAngle azimuth altitude distance heading lat long
              (Geo.horizontalAccuracy p) (Geo.verticalAccuracy p) alt date
              (OrbType.name (orbType rq)) in
    (s, [CallOnSuccess (onSuccess rq) info])
  | _, _ => (s, [Throw "TypeError"])
  end.

(** [onPositionFound], for the closure [rq]. *)
Definition onPositionFound (p : Geo.Position) (s : State) (rq : Request)
  : State * Request * list Effect :=
  let rq := set_foundPosition p rq in
  let '(ready, s) := isReady s in
  if ready then
    let '(s, eff) := interpretTrackingData s rq in
    (s, set_phase Finished rq, eff)
  else (s, set_phase AwaitHeading rq, []).

(** [requestUserPosition], for the closure [rq] stored at index [rid]. *)
Definition requestUserPosition (rid : nat) (s : State) (rq : Request)
  : State * Request * list Effect :=
  match foundPosition rq with
  | Some p => onPositionFound p s rq
  | None => (s, set_phase AwaitPosition rq, [GetCurrentPosition rid])
  end.

(** [getOrb]. *)
Definition getOrb (o : OrbType.t) (onSuccess onFail : option Callback)
  (s : State) : State * list Effect :=
  match onSuccess with
  | None => (s, [Throw (title ++ noCallback)])
  | Some succ =>
    if isSearching s o then
      (s, match onFail with
          | Some f => [CallOnFail f alreadyActive]
          | None => []
          end)
    else
      let s := set_isSearching o true s in
      let '(s, created) :=
        if locationService s then (s, [])
        else (set_locationService true s, [CreateLocationService]) in
      let rid := List.length (requests s) in
      let rq := mkRequest o succ onFail None AwaitLensStart in
      if JS.gtb (now s) initialWait then
        let '(s, rq, eff) := requestUserPosition rid s rq in
        (set_requests (requests s ++ [rq]) s, created ++ eff)
      else (set_requests (requests s ++ [rq]) s, created)
  end.

Definition getSun := getOrb OrbType.Sun.
Definition getMoon := getOrb OrbType.Moon.

(** What the caller and the host can do to the script. *)
Inductive Event :=
| GetSun (onSuccess onFail : option Callback)
| GetMoon (onSuccess onFail : option Callback)
| HostFrame (t : R) (d : Date) (tr : Transform)  (* time and pose move on *)
| UpdateEvent (rid : nat)            (* the update callback of a call runs *)
| NorthAlignedOrientationUpdate (h : R)
| PositionFound (rid : nat) (p : Geo.Position)
| PositionError (rid : nat) (err : string)
| CameraBackEvent
| CameraFrontEvent.

(** The update callback bound by the closure at [rid], if one is bound. *)
Definition onUpdate (rid : nat) (s : State) : State * list Effect :=
  match nth_error (requests s) rid with
  | None => (s, [])
  | Some rq =>
    match phase rq with
    | AwaitLensStart =>
      if JS.gtb (now s) initialWait then
        let '(s, rq, eff) := requestUserPosition rid s rq in
        (set_requests (store rid rq (requests s)) s, eff)
      else (s, [])
    | AwaitHeading =>
      let '(ready, s) := isReady s in
      if ready then
        let '(s, eff) := interpretTrackingData s rq in
        (set_requests (store rid (set_phase Finished rq) (requests s)) s, eff)
      else (s, [])
    | _ => (s, [])
    end
  end.

(** The two callbacks given to [getCurrentPosition] by the closure at
    [rid]; the service answers a call once. *)
Definition onPosition (rid : nat) (p : Geo.Position) (s : State)
  : State * list Effect :=
  match nth_error (requests s) rid with
  | None => (s, [])
  | Some rq =>
    match phase rq with
    | AwaitPosition =>
      let '(s, rq, eff) := onPositionFound p s rq in
      (set_requests (store rid rq (requests s)) s, eff)
    | _ => (s, [])
    end
  end.

Definition onPositionError (rid : nat) (err : string) (s : State)
  : State * list Effect :=
  match nth_error (requests s) rid with
  | None => (s, [])
  | Some rq =>
    match phase rq with
    | AwaitPosition =>
      (set_requests (store rid (set_phase Finished rq) (requests s)) s,
       match onFail rq with
       | Some f => [CallOnFail f err]
       | None => []
       end)
    | _ => (s, [])
    end
  end.

Definition step (s : State) (ev : Event) : State * list Effect :=
  match ev with
  | GetSun onSuccess onFail => getSun onSuccess onFail s
  | GetMoon onSuccess onFail => getMoon onSuccess onFail s
  | HostFrame t d tr => (set_host t d tr s, [])
  | UpdateEvent rid => onUpdate rid s
  | NorthAlignedOrientationUpdate h =>
    if locationService s then (set_heading h (now s) s, []) else (s, [])
  | PositionFound rid p => onPosition rid p s
  | PositionError rid err => onPositionError rid err s
  | CameraBackEvent =>
    if specs s then (s, []) else (set_frontCameraFlip false s, [])
  | CameraFrontEvent =>
    if specs s then (s, []) else (set_frontCameraFlip true s, [])
  end.

(** A run: the events in order, the effects in order. *)
Fixpoint run (s : State) (evs : list Event) : State * list Effect :=
  match evs with
  | [] => (s, [])
  | ev :: rest =>
    let '(s1, e1) := step s ev in
    let '(s2, e2) := run s1 rest in
    (s2, e1 ++ e2)
  end.

(** The script after [init], for a device and a first reading of the host. *)
Definition start (specs : bool) (t : R) (d : Date) (tr : Transform) : State :=
  mkState t d tr specs false false false None None None None [].

(** How often a run asked the location service for a position. *)
Fixpoint fetches (effs : list Effect) : nat :=
  match effs with
  | [] => O
  | GetCurrentPosition _ :: rest => S (fetches rest)
  | _ :: rest => fetches rest
  end.

(* ================================================================== *)
(** ** Inputs used by the examples *)
(* ================================================================== *)

(** The Sun's declination and right ascension at a date, as
    [getSunPosition] computes them on its way. *)
Definition sunEclipticLongitudeAt (date : Date) : R :=
  let M := Sun.getSolarMeanAnomaly (toDays date) in
  Sun.getEclipticLongitude M (Sun.getEquationOfCenter M).
Definition sunRightAscensionAt (date : Date) : R :=
  Sun.getRightAscension (sunEclipticLongitudeAt date).


(** 2000-01-01 12:00 UTC, the epoch J2000. *)
Definition epochJ2000 : Date := 946728000000%Z.


(** The latitude whose radians, by [degToRad], are a quarter turn. *)
Definition quarterTurnLatitude : R := PI / 2 / DEG_TO_RAD.

(** At the latitude of a quarter turn the azimuth angle is the hour angle;
    this longitude puts the hour angle at 0.000000000000001 above -PI. *)
Definition hourAngleNearMinusPI : R := 0.000000000000001 - PI.
Definition nearMinusPILongitude (date : Date) : R :=
  (hourAngleNearMinusPI + sunRightAscensionAt date
   - degToRad (280.16 + 360.9856235 * toDays date))
  / DEG_TO_RAD.

(* ================================================================== *)
(** ** Scenarios used by the examples *)
(* ================================================================== *)

(** The event that calls [getSun] or [getMoon], by the orb asked for. *)
Definition Call (o : OrbType.t) : option Callback -> option Callback -> Event :=
  match o with OrbType.Sun => GetSun | OrbType.Moon => GetMoon end.

(** A device held upright at the origin, looking along -z; its inverted
    world transform maps every point to itself. *)
Definition uprightTransform : Transform :=
  mkTransform (mkVec3 0 0 (-1)) (mkVec3 0 1 0) (fun p => p).

(** A position of the location service (Greenwich, roughly). *)
Definition greenwich : Geo.Position := Geo.mkPosition 51 0 45 10 10.

(** The example scene: it asks for the Moon and for the Sun when the lens
    starts; the first frame after the initial wait runs both update
    callbacks. *)
Definition exampleScene : list Event :=
  [ GetMoon (Some 1%nat) (Some 2%nat);
    GetSun (Some 3%nat) (Some 4%nat);
    HostFrame 1.5 1000%Z uprightTransform;
    UpdateEvent 0; UpdateEvent 1 ].

(** A caller that asks for the Sun, is told that the location fetch failed,
    and asks again. *)
Definition retryAfterFailure : list Event :=
  [ GetSun (Some 1%nat) (Some 2%nat);
    PositionError 0 "Location unavailable";
    GetSun (Some 3%nat) (Some 4%nat) ].

(** A request that resolves: position, then heading, then the frame's
    update. *)
Definition resolvingPrefix : list Event :=
  [ GetSun (Some 1%nat) None;
    PositionFound 0 greenwich;
    NorthAlignedOrientationUpdate 90 ].

(** A camera that projects every point to (0.25, 0.75). *)
Definition fixedCamera : Camera := mkCamera (fun _ => mkVec2 0.25 0.75).
Definition trackedCamera : DeviceTracking :=
  mkTracking uprightTransform (Some fixedCamera).

(** The state the resolving request is in before the frame's update. *)
Definition awaitingState : State :=
  mkState 2 0%Z uprightTransform false true false true (Some 90) (Some 2)
          None None
          [mkRequest OrbType.Sun 1%nat None (Some greenwich) AwaitHeading].

(** The same state when the latest heading delivered is 0, due north. *)
Definition dueNorthState : State :=
  mkState 2 0%Z uprightTransform false true false true (Some 0) (Some 2)
          None None
          [mkRequest OrbType.Sun 1%nat None (Some greenwich) AwaitHeading].

(** The state after the frame's update resolved the request. *)
Definition resolvedState : State :=
  mkState 2 0%Z uprightTransform false false false true (Some 90) (Some 2)
          (Some 0) None
          [mkRequest OrbType.Sun 1%nat None (Some greenwich) Finished].

(** A request for the Sun that resolves, followed by a second request for
    the Sun. *)
Definition askAgain : list Event :=
  resolvingPrefix ++ [UpdateEvent 0; GetSun (Some 5%nat) None].

(* ================================================================== *)
(** ** Notions used to state the properties of the gate *)
(* ================================================================== *)

(** The heading sample is as it was, and a created service stays created. *)
Definition same_sample (s s' : State) : Prop :=
  foundHeading s' = foundHeading s
  /\ foundHeadingTime s' = foundHeadingTime s
  /\ (locationService s = true -> locationService s' = true).

(** What a success consumed: a stored heading [h], stamped [t], younger than
    the lifetime at the clock of the state, and reported after the
    adjustments of [workingHeading] in the state [s']. *)
Definition consumed (s s' : State) (info : Info.t) : Prop :=
  exists h t,
    foundHeading s = Some h /\ foundHeadingTime s = Some t
    /\ now s - t < headingLifetime
    /\ Info.userHeading info = workingHeading s' h.

(** What the closures of a reachable state satisfy: a closure that waits for
    the lens start has found no position, one that waits for the heading has
    found one. *)
Definition request_ok (rq : Request) : Prop :=
  match phase rq with
  | AwaitLensStart => foundPosition rq = None
  | AwaitHeading => foundPosition rq <> None
  | _ => True
  end.
Definition requests_ok (s : State) : Prop := Forall request_ok (requests s).

Definition is_heading_update (ev : Event) : Prop :=
  match ev with NorthAlignedOrientationUpdate _ => True | _ => False end.

(** The latest heading the history [evs] delivered was [h], and the clock
    read [t] at that delivery: [evs] splits at a heading update that found
    the service created, and no heading update follows it. *)
Definition captured (init : State) (evs : list Event) (h t : R) : Prop :=
  exists evs1 evs2,
    evs = evs1 ++ NorthAlignedOrientationUpdate h :: evs2
    /\ Forall (fun ev => ~ is_heading_update ev) evs2
    /\ locationService (fst (run init evs1)) = true
    /\ t = now (fst (run init evs1)).

(** The stored sample is the latest heading the history delivered. *)
Definition sample_known (init : State) (evs : list Event) (s : State) : Prop :=
  match foundHeading s, foundHeadingTime s with
  | None, None => True
  | Some h, Some t => locationService s = true /\ captured init evs h t
  | _, _ => False
  end.

(* ================================================================== *)
(** ** Notions used to state further properties *)
(* ================================================================== *)

(** The squared length of a vector. *)
Definition norm2 (v : vec3) : R := Vec3.dot v v.

(** The state as the host and the heading handler left it: everything but
    the tilt and the two searching flags. *)
Definition same_host (s s' : State) : Prop :=
  now s' = now s /\ today s' = today s /\ transform s' = transform s
  /\ specs s' = specs s /\ locationService s' = locationService s
  /\ frontCameraFlip s' = frontCameraFlip s
  /\ foundHeading s' = foundHeading s
  /\ foundHeadingTime s' = foundHeadingTime s
  /\ requests s' = requests s.

(** Counting the effects of a run. *)
Fixpoint creations (effs : list Effect) : nat :=
  match effs with
  | [] => O
  | CreateLocationService :: rest => S (creations rest)
  | _ :: rest => creations rest
  end.

Fixpoint successes (effs : list Effect) : nat :=
  match effs with
  | [] => O
  | CallOnSuccess _ _ :: rest => S (successes rest)
  | _ :: rest => successes rest
  end.

(** Counting the closures of a state: those of an orb that still have
    something registered with the host, and those that have not. *)
Definition orb_eqb (a b : OrbType.t) : bool :=
  match a, b with
  | OrbType.Sun, OrbType.Sun | OrbType.Moon, OrbType.Moon => true
  | _, _ => false
  end.

Definition active (rq : Request) : bool :=
  match phase rq with Finished => false | _ => true end.

Definition counts (o : OrbType.t) (rq : Request) : nat :=
  if orb_eqb (orbType rq) o && active rq then 1%nat else 0%nat.

Fixpoint pending (o : OrbType.t) (rs : list Request) : nat :=
  match rs with
  | [] => O
  | rq :: rest => (counts o rq + pending o rest)%nat
  end.

Fixpoint finished (rs : list Request) : nat :=
  match rs with
  | [] => O
  | rq :: rest => ((if active rq then 0 else 1) + finished rest)%nat
  end.

(** The calls of a history that pass the callback check. *)
Fixpoint calls (evs : list Event) : nat :=
  match evs with
  | [] => O
  | GetSun (Some _) _ :: rest | GetMoon (Some _) _ :: rest => S (calls rest)
  | _ :: rest => calls rest
  end.

(** The camera the latest camera event of a history announced. *)
Fixpoint lastCamera (evs : list Event) : option bool :=
  match evs with
  | [] => None
  | ev :: rest =>
    match lastCamera rest with
    | Some b => Some b
    | None =>
      match ev with
      | CameraBackEvent => Some false
      | CameraFrontEvent => Some true
      | _ => None
      end
    end
  end.

(** The heading before the tilt correction: mirrored on the front camera,
    turned by 180 on Spectacles. *)
Definition uncorrectedHeading (s : State) (h : R) : R :=
  (match frontCameraFlip s with Some true => - h | _ => h end)
  + (if specs s then 180 else 0).

(** What an effect of a step can be, and why: each effect of [step s ev] is
    explained by the event and by the state it met. *)
Inductive Explains (s : State) (ev : Event) : Effect -> Prop :=
| ex_noCallback o f :
    ev = Call o None f ->
    Explains s ev (Throw (title ++ noCallback))
| ex_contended o succ f :
    ev = Call o (Some succ) (Some f) -> isSearching s o = true ->
    Explains s ev (CallOnFail f alreadyActive)
| ex_created o succ f :
    ev = Call o (Some succ) f -> isSearching s o = false ->
    locationService s = false ->
    Explains s ev CreateLocationService
| ex_fetch_new o succ f :
    ev = Call o (Some succ) f -> isSearching s o = false ->
    initialWait < now s ->
    Explains s ev (GetCurrentPosition (List.length (requests s)))
| ex_fetch_waited rid rq :
    ev = UpdateEvent rid -> nth_error (requests s) rid = Some rq ->
    phase rq = AwaitLensStart -> foundPosition rq = None ->
    initialWait < now s ->
    Explains s ev (GetCurrentPosition rid)
| ex_success rid rq rq' info :
    (ev = UpdateEvent rid \/ exists p, ev = PositionFound rid p) ->
    nth_error (requests s) rid = Some rq -> active rq = true ->
    fst (isReady s) = true ->
    (rq' = rq \/ exists p, rq' = set_foundPosition p rq) ->
    snd (interpretTrackingData (snd (isReady s)) rq')
    = [CallOnSuccess (onSuccess rq) info] ->
    Explains s ev (CallOnSuccess (onSuccess rq) info)
| ex_type_error :
    Explains s ev (Throw "TypeError")
| ex_failed rid rq f err :
    ev = PositionError rid err -> nth_error (requests s) rid = Some rq ->
    phase rq = AwaitPosition -> onFail rq = Some f ->
    Explains s ev (CallOnFail f err).

(** A closure after an update of its position or phase: the caller's part
    is as it was. *)
Definition same_caller (rq rq' : Request) : Prop :=
  orbType rq' = orbType rq /\ onSuccess rq' = onSuccess rq
  /\ onFail rq' = onFail rq.

(** What a step can do to the state, with what is needed of its effects:
    [step s ev] makes one of these moves. *)
Inductive Moves (s : State) (ev : Event) : State -> list Effect -> Prop :=
| mv_nothing effs :
    creations effs = 0%nat -> successes effs = 0%nat ->
    (ev = CameraBackEvent \/ ev = CameraFrontEvent -> specs s = true) ->
    Moves s ev s effs
| mv_host t d tr :
    ev = HostFrame t d tr -> Moves s ev (set_host t d tr s) []
| mv_heading h :
    ev = NorthAlignedOrientationUpdate h ->
    Moves s ev (set_heading h (now s) s) []
| mv_camera (b : bool) :
    ev = (if b then CameraFrontEvent else CameraBackEvent) ->
    specs s = false ->
    Moves s ev (set_frontCameraFlip b s) []
| mv_accept o succ f ph effs :
    ev = Call o (Some succ) f -> isSearching s o = false ->
    ph <> Finished ->
    successes effs = 0%nat ->
    creations effs = (if locationService s then 0%nat else 1%nat) ->
    Moves s ev
          (set_requests (requests s ++ [mkRequest o succ f None ph])
             (set_locationService true (set_isSearching o true s)))
          effs
| mv_measure rid :
    ev = UpdateEvent rid -> Moves s ev (snd (isReady s)) []
| mv_wait rid rq rq' s0 effs :
    (ev = UpdateEvent rid \/ exists p, ev = PositionFound rid p) ->
    nth_error (requests s) rid = Some rq ->
    active rq = true -> active rq' = true -> same_caller rq rq' ->
    (s0 = s \/ s0 = snd (isReady s)) ->
    creations effs = 0%nat -> successes effs = 0%nat ->
    Moves s ev (set_requests (store rid rq' (requests s)) s0) effs
| mv_resolve rid rq rq' effs :
    (ev = UpdateEvent rid \/ exists p, ev = PositionFound rid p) ->
    nth_error (requests s) rid = Some rq ->
    active rq = true -> phase rq' = Finished -> same_caller rq rq' ->
    creations effs = 0%nat -> (successes effs <= 1)%nat ->
    Moves s ev
          (set_requests (store rid rq' (requests s))
             (set_isSearching (orbType rq) false (snd (isReady s))))
          effs
| mv_fail rid rq err effs :
    ev = PositionError rid err ->
    nth_error (requests s) rid = Some rq -> phase rq = AwaitPosition ->
    creations effs = 0%nat -> successes effs = 0%nat ->
    Moves s ev
          (set_requests (store rid (set_phase Finished rq) (requests s)) s)
          effs.

(* ================================================================== *)
(** ** Numeric facts *)
(* ================================================================== *)

(** The terms of the arctangent series at the inverse of an integer. *)
Lemma Ratan_seq_inv (k : Z) (n : nat) :
  (0 < k)%Z ->
  Ratan_seq (/ IZR k) n
  = / IZR (k ^ (2 * Z.of_nat n + 1) * (2 * Z.of_nat n + 1)).
Proof.
  intros Hk. unfold Ratan_seq.
  rewrite mult_IZR, <- (Z2Nat.id (2 * Z.of_nat n + 1)) at 1 by lia.
  rewrite <- pow_IZR.
  replace (Z.to_nat (2 * Z.of_nat n + 1)) with (2 * n + 1)%nat by lia.
  rewrite pow_inv, INR_IZR_INZ.
  replace (Z.of_nat (2 * n + 1)) with (2 * Z.of_nat n + 1)%Z by lia.
  unfold Rdiv. now rewrite Rinv_mult.
Qed.

(** Thirteen digits of PI, from the series of 2 atan(1/3) + atan(1/7). *)
Lemma PI_lower : 3.14159265358883 < PI.
Proof.
  pose proof (PI_2_3_7_ineq 6) as [Hlo _].
  cbn [sum_f_R0 Nat.mul Nat.add] in Hlo.
  unfold tg_alt, PI_2_3_7_tg in Hlo.
  rewrite !Ratan_seq_inv in Hlo by lia.
  cbn [pow] in Hlo.
  cbv [Z.of_nat Pos.of_succ_nat Pos.succ Z.mul Z.add Pos.mul Pos.add Z.pow
       Z.pow_pos Pos.iter Pos.add_carry] in Hlo.
  lra.
Qed.

Lemma PI_upper : PI < 3.14159265358983.
Proof.
  pose proof (PI_2_3_7_ineq 6) as [_ Hhi].
  cbn [sum_f_R0 Nat.mul Nat.add] in Hhi.
  unfold tg_alt, PI_2_3_7_tg in Hhi.
  rewrite !Ratan_seq_inv in Hhi by lia.
  cbn [pow] in Hhi.
  cbv [Z.of_nat Pos.of_succ_nat Pos.succ Z.mul Z.add Pos.mul Pos.add Z.pow
       Z.pow_pos Pos.iter Pos.add_carry] in Hhi.
  lra.
Qed.

Lemma PI_digits : 3.14159265358883 < PI < 3.14159265358983.
Proof. split; [apply PI_lower | apply PI_upper]. Qed.

(** The script's radian-to-degree factor exceeds 180/PI. *)
Lemma RAD_TO_DEG_half_turn : 180 < radToDeg PI < 180.0000000001.
Proof.
  unfold radToDeg, RAD_TO_DEG. pose proof PI_digits. lra.
Qed.


Module JSFacts.

Lemma ltb_true x y : JS.ltb x y = true <-> x < y.
Proof. unfold JS.ltb. destruct (Rlt_dec x y); split; intros; auto; discriminate. Qed.

Lemma ltb_false x y : JS.ltb x y = false <-> ~ x < y.
Proof. unfold JS.ltb. destruct (Rlt_dec x y); split; intros; auto; try discriminate; tauto. Qed.

Lemma gtb_true x y : JS.gtb x y = true <-> y < x.
Proof. apply ltb_true. Qed.

Lemma truthy_true x : JS.truthy x = true <-> x <> 0.
Proof. unfold JS.truthy. destruct (Req_dec_T x 0); split; intros; auto; try discriminate; tauto. Qed.

Lemma truthy_0 : JS.truthy 0 = false.
Proof. unfold JS.truthy. destruct (Req_dec_T 0 0); auto; tauto. Qed.




Lemma trunc_small a : -1 < a < 1 -> JS.trunc a = 0%Z.
Proof.
  intros [Hlo Hhi]. unfold JS.trunc.
  destruct (Rle_dec 0 a).
  - apply Zfloor_eq. simpl. lra.
  - replace (Zfloor (- a)) with 0%Z; [reflexivity |].
    symmetry. apply Zfloor_eq. simpl. lra.
Qed.

Lemma trunc_one a : 1 <= a < 2 -> JS.trunc a = 1%Z.
Proof.
  intros [Hlo Hhi]. unfold JS.trunc.
  destruct (Rle_dec 0 a); [| lra].
  apply Zfloor_eq. simpl. lra.
Qed.

(** The remainder by 360 of a value in (-360, 720). *)
Lemma rem_360_small a : -360 < a < 360 -> JS.rem a 360 = a.
Proof.
  intros H. unfold JS.rem. rewrite trunc_small; [simpl; ring |]. lra.
Qed.

Lemma rem_360_wrap a : 360 <= a < 720 -> JS.rem a 360 = a - 360.
Proof.
  intros H. unfold JS.rem. rewrite trunc_one; [simpl; ring |]. lra.
Qed.

End JSFacts.

(* ================================================================== *)
(** ** Tactics *)
(* ================================================================== *)

(** Comparisons between numerals, decided. *)
Ltac js_decide :=
  unfold JS.gtb;
  repeat match goal with
  | |- context [JS.ltb ?a ?b] =>
    first [ rewrite (proj2 (JSFacts.ltb_true a b)) by lra
          | rewrite (proj2 (JSFacts.ltb_false a b)) by lra ]
  | |- context [JS.truthy ?a] =>
    first [ rewrite (proj2 (JSFacts.truthy_true a)) by lra
          | rewrite JSFacts.truthy_0 ]
  end.

(** The projections and setters of the state and of a closure, computed. *)
Ltac st :=
  cbn [now today transform specs sunSearching moonSearching locationService
       foundHeading foundHeadingTime tilt frontCameraFlip requests
       set_isSearching set_locationService set_heading set_tilt
       set_frontCameraFlip set_host set_requests set_phase set_foundPosition
       orbType onSuccess onFail foundPosition phase isSearching store
       nth_error app List.length fst snd].

Ltac gate_eval :=
  unfold initialWait, headingLifetime; repeat (progress (st; js_decide)).

(** Case analysis on every test of a goal. *)
Ltac break_tests :=
  repeat match goal with
  | |- context [match ?x with _ => _ end] => destruct x eqn:?
  | |- context [if ?x then _ else _] => destruct x eqn:?
  end.




(* ================================================================== *)
(** ** The ephemeris solver: ranges *)
(* ================================================================== *)


Lemma DEG_TO_RAD_neq_0 : DEG_TO_RAD <> 0.
Proof. unfold DEG_TO_RAD. lra. Qed.



(** [Math.atan2] in the third quadrant. *)
Lemma atan2_third_quadrant (b : R) :
  0 < b < PI / 2 -> JS.atan2 (sin (b - PI)) (cos (b - PI)) = b - PI.
Proof.
  intros Hb.
  assert (Hs : 0 < sin b) by (apply sin_gt_0; lra).
  assert (Hc : 0 < cos b) by (apply cos_gt_0; lra).
  rewrite sin_minus, cos_minus, sin_PI, cos_PI.
  replace (sin b * -1 - cos b * 0) with (- sin b) by ring.
  replace (cos b * -1 + sin b * 0) with (- cos b) by ring.
  unfold JS.atan2.
  destruct (Rlt_dec 0 (- cos b)); [lra |].
  destruct (Rlt_dec (- cos b) 0); [| lra].
  destruct (Rle_dec 0 (- sin b)); [lra |].
  replace (- sin b / - cos b) with (tan b) by (unfold tan; field; lra).
  rewrite atan_tan by lra. reflexivity.
Qed.

(** The azimuth can come out below 0: at the latitude of a quarter turn, with
    the hour angle just above -PI, the reported azimuth is negative. *)
Lemma sun_azimuth_below_0 :
  azimuth (getSunPosition epochJ2000 quarterTurnLatitude
                          (nearMinusPILongitude epochJ2000)) < 0.
Proof.
  unfold getSunPosition. cbv zeta. cbn [azimuth].
  unfold getAzAlt. cbn [az_rad].
  fold (sunEclipticLongitudeAt epochJ2000).
  fold (sunRightAscensionAt epochJ2000).
  replace (degToRad quarterTurnLatitude) with (PI / 2).
  2:{ unfold degToRad, quarterTurnLatitude. field. apply DEG_TO_RAD_neq_0. }
  replace (Sun.getHourAngle _ _) with hourAngleNearMinusPI.
  2:{ unfold Sun.getHourAngle, getSiderealTime, nearMinusPILongitude, degToRad.
      field. apply DEG_TO_RAD_neq_0. }
  rewrite sin_PI2, cos_PI2.
  replace (cos hourAngleNearMinusPI * 1 - _ * 0)
    with (cos hourAngleNearMinusPI) by ring.
  pose proof PI_digits as [Hp1 Hp2].
  unfold hourAngleNearMinusPI.
  rewrite atan2_third_quadrant by lra.
  unfold radToDeg, RAD_TO_DEG.
  rewrite JSFacts.rem_360_small; lra.
Qed.

(** The distances of both solvers, whatever the mean anomalies are. *)
Lemma sun_distance_bounds (date : Date) (latitude longitude : R) :
  1.4709e13 <= distance (getSunPosition date latitude longitude) <= 1.5214e13.
Proof.
  unfold getSunPosition. cbv zeta. cbn [distance].
  unfold Sun.getSunDistanceAU, Sun.AU_IN_CM.
  set (M := Sun.getSolarMeanAnomaly (toDays date)).
  pose proof (COS_bound M).
  pose proof (COS_bound (2 * M + Sun.getEquationOfCenter M)).
  split; lra.
Qed.

Lemma moon_distance_bounds (date : Date) (latitude longitude : R) :
  3.64096e10 <= distance (getMoonPosition date latitude longitude)
  <= 4.05906e10.
Proof.
  unfold getMoonPosition. cbv zeta. cbn [distance].
  unfold Moon.getMoonCoords. cbv zeta. cbn [Moon.dist].
  pose proof (COS_bound (degToRad (134.963 + 13.064993 * toDays date))).
  split; lra.
Qed.

(** C8 (as amended): for every instant, latitude and longitude both reported
    distances are positive; the Sun's lies between 1.4709e13 cm and
    1.5214e13 cm and the Moon's between 3.64096e10 cm and 4.05906e10 cm. *)
Theorem distances_positive_and_bounded (date : Date) (latitude longitude : R) :
  let sun := distance (getSunPosition date latitude longitude) in
  let moon := distance (getMoonPosition date latitude longitude) in
  (0 < sun /\ 1.4709e13 <= sun <= 1.5214e13)
  /\ (0 < moon /\ 3.64096e10 <= moon <= 4.05906e10).
Proof.
  cbv zeta.
  pose proof (sun_distance_bounds date latitude longitude).
  pose proof (moon_distance_bounds date latitude longitude).
  repeat split; lra.
Qed.

(** C8, counterexample: at the Unix epoch the Moon's reported distance is not
    between 3.56e7 cm and 4.07e7 cm, nor within a factor 100 of that range. *)
Lemma moon_distance_not_e7 :
  let moon := distance (getMoonPosition 0%Z 0 0) in
  ~ (3.56e7 / 100 <= moon <= 4.07e7 * 100).
Proof.
  cbv zeta. intros [_ H].
  pose proof (moon_distance_bounds 0%Z 0 0). lra.
Qed.

(* ================================================================== *)
(** ** The ephemeris solver against the reference algorithm *)
(* ================================================================== *)

Module RefFacts.
Import Reference.





Lemma sun_L_eq (M C : R) : Sun.getEclipticLongitude M C = sun_L PI M C.
Proof. reflexivity. Qed.

Lemma report_eq (H phi dec cm : R) :
  (let aa := getAzAlt H phi dec in
   mkSky (JS.rem (radToDeg (az_rad aa) + 180) 360) (radToDeg (alt_rad aa)) cm)
  = report H phi dec cm.
Proof. reflexivity. Qed.






(** The obliquity is an angle of the first quadrant. *)
Lemma sin_earthTilt_pos : 0 < sin Sun.earthTiltRad.
Proof.
  pose proof PI_lower.
  apply sin_gt_0; unfold Sun.earthTiltRad, degToRad, DEG_TO_RAD; lra.
Qed.


End RefFacts.




(* ================================================================== *)
(** ** The screen projection helper *)
(* ================================================================== *)

(** C9: without a camera [worldToScreen] returns undefined; it never throws;
    with a camera it returns both fields, the position being the camera's
    screen point remapped by ((x - 0.5) * 2, (1 - y - 0.5) * 2), which lies
    in [-1,1] x [-1,1] when the screen point lies in [0,1] x [0,1], and
    [isInFront] being true exactly when the z coordinate of the point in the
    inverted world transform is negative. *)
Theorem worldToScreen_contract
  (tracking : option DeviceTracking) (worldPosition : vec3) :
  (cam tracking = None -> worldToScreen tracking worldPosition = Returned None)
  /\ (forall msg, worldToScreen tracking worldPosition <> Thrown msg)
  /\ (forall c, cam tracking = Some c ->
      exists t info,
        tracking = Some t
        /\ worldToScreen tracking worldPosition = Returned (Some info)
        /\ (let p := worldSpaceToScreenSpace c worldPosition in
            position info = mkVec2 ((x2 p - 0.5) * 2) ((1 - y2 p - 0.5) * 2)
            /\ (0 <= x2 p <= 1 -> 0 <= y2 p <= 1 ->
                -1 <= x2 (position info) <= 1
                /\ -1 <= y2 (position info) <= 1))
        /\ (isInFront info = true
            <-> vz (invertedWorldPoint (getTransform t) worldPosition) < 0)).
Proof.
  unfold worldToScreen. repeat split.
  - intros ->. reflexivity.
  - intros msg. destruct tracking as [t |]; cbn.
    + destruct (getCameraComponent t); discriminate.
    + discriminate.
  - intros c Hc. destruct tracking as [t |]; [| discriminate].
    rewrite Hc. eexists t, _. split; [reflexivity |].
    split; [reflexivity |]. cbn [position isInFront x2 y2].
    repeat split; try lra. all: apply JSFacts.ltb_true.
Qed.

Lemma worldToScreen_contract_witness :
  cam (Some trackedCamera) = Some fixedCamera
  /\ exists info,
       worldToScreen (Some trackedCamera) (mkVec3 0 0 (-5)) = Returned (Some info)
       /\ position info = mkVec2 ((0.25 - 0.5) * 2) ((1 - 0.75 - 0.5) * 2)
       /\ isInFront info = true.
Proof.
  split; [reflexivity |].
  destruct (worldToScreen_contract (Some trackedCamera) (mkVec3 0 0 (-5)))
    as [_ [_ H]].
  destruct (H fixedCamera eq_refl) as [t [info [Ht [Hw [[Hp _] Hf]]]]].
  exists info. split; [exact Hw |]. split; [exact Hp |].
  apply Hf. injection Ht as <-. cbn. lra.
Defined.

(* ================================================================== *)
(** ** The readiness gate *)
(* ================================================================== *)

Module Gate.

Lemma same_sample_refl s : same_sample s s.
Proof. repeat split; auto. Qed.

Lemma same_sample_trans s1 s2 s3 :
  same_sample s1 s2 -> same_sample s2 s3 -> same_sample s1 s3.
Proof. intros [A [B E]] [C [D F]]. repeat split; try congruence. auto. Qed.

Lemma set_isSearching_sample o b s : same_sample s (set_isSearching o b s).
Proof. destruct o; repeat split; auto. Qed.

Lemma checkTilt_sample s : same_sample s (snd (checkTilt s)).
Proof.
  unfold checkTilt. destruct (negb awaitUpright); repeat split; auto.
Qed.

Lemma isReady_sample s : same_sample s (snd (isReady s)).
Proof.
  unfold isReady. destruct (foundHeading s) eqn:Hh; [| apply same_sample_refl].
  destruct (JS.truthy r); [| apply same_sample_refl].
  destruct (checkTimeStamp s (foundHeadingTime s) headingLifetime);
    [| apply same_sample_refl].
  pose proof (checkTilt_sample s). destruct (checkTilt s). exact H.
Qed.

Lemma interpretTrackingData_sample s rq :
  same_sample s (fst (interpretTrackingData s rq)).
Proof.
  unfold interpretTrackingData.
  pose proof (set_isSearching_sample (orbType rq) false s).
  break_tests; exact H.
Qed.

Lemma onPositionFound_sample p s rq :
  same_sample s (fst (fst (onPositionFound p s rq))).
Proof.
  unfold onPositionFound.
  pose proof (isReady_sample s) as H1. destruct (isReady s) as [ready s1].
  cbn [snd] in H1. destruct ready; [| exact H1].
  pose proof (interpretTrackingData_sample s1 (set_foundPosition p rq)) as H2.
  destruct (interpretTrackingData s1 (set_foundPosition p rq)).
  cbn [fst] in *. eapply same_sample_trans; eassumption.
Qed.

Lemma requestUserPosition_sample rid s rq :
  same_sample s (fst (fst (requestUserPosition rid s rq))).
Proof.
  unfold requestUserPosition. destruct (foundPosition rq).
  - apply onPositionFound_sample.
  - apply same_sample_refl.
Qed.

Lemma getOrb_sample o a b s : same_sample s (fst (getOrb o a b s)).
Proof.
  unfold getOrb. destruct a as [succ |]; [| apply same_sample_refl].
  destruct (isSearching s o); [apply same_sample_refl |].
  set (s1 := set_isSearching o true s).
  assert (H1 : same_sample s s1) by apply set_isSearching_sample.
  destruct (locationService s1).
  - destruct (JS.gtb (now s1) initialWait); [| exact H1].
    pose proof (requestUserPosition_sample (List.length (requests s1)) s1
                  (mkRequest o succ b None AwaitLensStart)) as H2.
    destruct (requestUserPosition _ s1 _) as [[s2 rq2] eff].
    cbn [fst] in *. eapply same_sample_trans; [exact H1 |].
    destruct H2 as [A [B C]]. repeat split; assumption.
  - set (s1' := set_locationService true s1).
    assert (H1' : same_sample s s1')
      by (destruct H1 as [A [B C]]; repeat split; auto).
    destruct (JS.gtb (now s1') initialWait); [| exact H1'].
    pose proof (requestUserPosition_sample (List.length (requests s1')) s1'
                  (mkRequest o succ b None AwaitLensStart)) as H2.
    destruct (requestUserPosition _ s1' _) as [[s2 rq2] eff].
    cbn [fst] in *. eapply same_sample_trans; [exact H1' |].
    destruct H2 as [A [B C]]. repeat split; assumption.
Qed.

Lemma onUpdate_sample rid s : same_sample s (fst (onUpdate rid s)).
Proof.
  unfold onUpdate. destruct (nth_error (requests s) rid) as [rq |];
    [| apply same_sample_refl].
  destruct (phase rq); try apply same_sample_refl.
  - destruct (JS.gtb (now s) initialWait); [| apply same_sample_refl].
    pose proof (requestUserPosition_sample rid s rq) as H.
    destruct (requestUserPosition rid s rq) as [[s2 rq2] eff]. exact H.
  - pose proof (isReady_sample s) as H1. destruct (isReady s) as [ready s1].
    cbn [snd] in H1. destruct ready; [| exact H1].
    pose proof (interpretTrackingData_sample s1 rq) as H2.
    destruct (interpretTrackingData s1 rq) as [s2 eff]. cbn [fst] in *.
    destruct H1 as [A [B C]], H2 as [D [E F]].
    repeat split; cbn; try congruence. auto.
Qed.

Lemma onPosition_sample rid p s : same_sample s (fst (onPosition rid p s)).
Proof.
  unfold onPosition. destruct (nth_error (requests s) rid) as [rq |];
    [| apply same_sample_refl].
  destruct (phase rq); try apply same_sample_refl.
  pose proof (onPositionFound_sample p s rq) as H.
  destruct (onPositionFound p s rq) as [[s2 rq2] eff]. exact H.
Qed.

Lemma onPositionError_sample rid e s :
  same_sample s (fst (onPositionError rid e s)).
Proof.
  unfold onPositionError. destruct (nth_error (requests s) rid) as [rq |];
    [| apply same_sample_refl].
  destruct (phase rq); repeat split; auto.
Qed.

Lemma step_sample s ev :
  ~ is_heading_update ev -> same_sample s (fst (step s ev)).
Proof.
  intros Hev. destruct ev; cbn [step].
  - apply getOrb_sample.
  - apply getOrb_sample.
  - repeat split; auto.
  - apply onUpdate_sample.
  - exfalso. apply Hev. exact I.
  - apply onPosition_sample.
  - apply onPositionError_sample.
  - destruct (specs s); repeat split; auto.
  - destruct (specs s); repeat split; auto.
Qed.

End Gate.

Module Resolve.

Lemma isReady_true s s1 :
  isReady s = (true, s1) ->
  exists h t,
    foundHeading s = Some h /\ foundHeadingTime s = Some t
    /\ now s - t < headingLifetime /\ h <> 0
    /\ s1 = snd (checkTilt s).
Proof.
  unfold isReady. destruct (foundHeading s) as [h |]; [| discriminate].
  destruct (JS.truthy h) eqn:Hh; [| discriminate].
  unfold checkTimeStamp.
  destruct (foundHeadingTime s) as [t |]; [| discriminate].
  destruct (JS.ltb (now s - t) headingLifetime) eqn:Ht; [| discriminate].
  destruct (checkTilt s) as [tilted s2]. intros H. injection H as _ <-.
  exists h, t. repeat split.
  - now apply JSFacts.ltb_true.
  - now apply JSFacts.truthy_true.
Qed.

Lemma workingHeading_requests rs s h :
  workingHeading (set_requests rs s) h = workingHeading s h.
Proof. reflexivity. Qed.

Lemma interpret_success s rq s2 eff cb info :
  interpretTrackingData s rq = (s2, eff) ->
  In (CallOnSuccess cb info) eff ->
  exists h, foundHeading s = Some h
            /\ Info.userHeading info = workingHeading s2 h.
Proof.
  unfold interpretTrackingData.
  assert (Hs : foundHeading (set_isSearching (orbType rq) false s)
               = foundHeading s) by (destruct (orbType rq); reflexivity).
  rewrite Hs. destruct (foundHeading s) as [h |].
  - destruct (foundPosition rq) as [p |].
    + intros H Hin. injection H as <- <-.
      destruct Hin as [Hin | []]. injection Hin as _ <-.
      exists h. split; reflexivity.
    + intros H Hin. injection H as <- <-.
      destruct Hin as [Hin | []]. discriminate.
  - intros H Hin. injection H as <- <-.
    destruct Hin as [Hin | []]. discriminate.
Qed.

(** Readiness followed by the interpretation, as both callers do it. *)
Lemma ready_then_interpret s s1 rq s2 eff cb info :
  isReady s = (true, s1) ->
  interpretTrackingData s1 rq = (s2, eff) ->
  In (CallOnSuccess cb info) eff ->
  consumed s s2 info.
Proof.
  intros Hr Hi Hin.
  destruct (isReady_true _ _ Hr) as [h [t [Hh [Ht [Hlt [_ Hs1]]]]]].
  destruct (interpret_success _ _ _ _ _ _ Hi Hin) as [h' [Hh' Hu]].
  pose proof (Gate.checkTilt_sample s) as [Hsame _].
  rewrite <- Hs1 in Hsame. rewrite Hsame, Hh in Hh'. injection Hh' as <-.
  exists h, t. auto.
Qed.

Lemma onPositionFound_success p s rq s2 rq2 eff cb info :
  onPositionFound p s rq = (s2, rq2, eff) ->
  In (CallOnSuccess cb info) eff ->
  consumed s s2 info.
Proof.
  unfold onPositionFound. destruct (isReady s) as [ready s1] eqn:Hr.
  destruct ready.
  - destruct (interpretTrackingData s1 (set_foundPosition p rq))
      as [s3 eff3] eqn:Hi.
    intros H Hin. injection H as <- _ <-.
    eapply ready_then_interpret; eassumption.
  - intros H Hin. injection H as _ _ <-. destruct Hin.
Qed.

Lemma requestUserPosition_success rid s rq s2 rq2 eff cb info :
  requestUserPosition rid s rq = (s2, rq2, eff) ->
  In (CallOnSuccess cb info) eff ->
  consumed s s2 info.
Proof.
  unfold requestUserPosition. destruct (foundPosition rq) as [p |].
  - apply onPositionFound_success.
  - intros H Hin. injection H as _ _ <-.
    destruct Hin as [Hin | []]. discriminate.
Qed.

Lemma consumed_requests s s2 rs info :
  consumed s s2 info -> consumed s (set_requests rs s2) info.
Proof. intros [h [t H]]. exists h, t. exact H. Qed.

Lemma consumed_from s0 s s2 info :
  foundHeading s0 = foundHeading s ->
  foundHeadingTime s0 = foundHeadingTime s ->
  now s0 = now s ->
  consumed s s2 info -> consumed s0 s2 info.
Proof.
  intros A B C [h [t H]]. exists h, t. rewrite A, B, C. exact H.
Qed.

Lemma getOrb_success o a b s s' eff cb info :
  getOrb o a b s = (s', eff) ->
  In (CallOnSuccess cb info) eff ->
  consumed s s' info.
Proof.
  unfold getOrb. destruct a as [succ |].
  2:{ intros H Hin. injection H as _ <-. destruct Hin as [Hin | []].
      discriminate. }
  destruct (isSearching s o).
  { intros H Hin. injection H as _ <-.
    destruct b; [destruct Hin as [Hin | []]; discriminate | destruct Hin]. }
  set (s1 := set_isSearching o true s).
  assert (A1 : foundHeading s1 = foundHeading s) by (destruct o; reflexivity).
  assert (B1 : foundHeadingTime s1 = foundHeadingTime s)
    by (destruct o; reflexivity).
  assert (C1 : now s1 = now s) by (destruct o; reflexivity).
  destruct (locationService s1).
  - destruct (JS.gtb (now s1) initialWait).
    + destruct (requestUserPosition _ s1 _) as [[s2 rq2] eff2] eqn:Hq.
      intros H Hin. injection H as <- <-. cbn [app] in Hin.
      apply consumed_requests.
      eapply consumed_from; [symmetry; exact A1 | symmetry; exact B1
                            | symmetry; exact C1 |].
      eapply requestUserPosition_success; eassumption.
    + intros H Hin. injection H as _ <-. destruct Hin.
  - set (s1' := set_locationService true s1).
    destruct (JS.gtb (now s1') initialWait).
    + destruct (requestUserPosition _ s1' _) as [[s2 rq2] eff2] eqn:Hq.
      intros H Hin. injection H as <- <-. cbn [app] in Hin.
      destruct Hin as [Hin | Hin]; [discriminate |].
      apply consumed_requests.
      eapply (consumed_from s s1'); [symmetry; exact A1 | symmetry; exact B1
                                    | symmetry; exact C1 |].
      eapply requestUserPosition_success; eassumption.
    + intros H Hin. injection H as _ <-.
      destruct Hin as [Hin | []]. discriminate.
Qed.

Lemma onUpdate_success rid s s' eff cb info :
  onUpdate rid s = (s', eff) ->
  In (CallOnSuccess cb info) eff ->
  consumed s s' info.
Proof.
  unfold onUpdate. destruct (nth_error (requests s) rid) as [rq |].
  2:{ intros H Hin. injection H as _ <-. destruct Hin. }
  destruct (phase rq);
    try (intros H Hin; injection H as _ <-; destruct Hin; fail).
  - destruct (JS.gtb (now s) initialWait).
    + destruct (requestUserPosition rid s rq) as [[s2 rq2] eff2] eqn:Hq.
      intros H Hin. injection H as <- <-. apply consumed_requests.
      eapply requestUserPosition_success; eassumption.
    + intros H Hin. injection H as _ <-. destruct Hin.
  - destruct (isReady s) as [ready s1] eqn:Hr. destruct ready.
    + destruct (interpretTrackingData s1 rq) as [s2 eff2] eqn:Hi.
      intros H Hin. injection H as <- <-. apply consumed_requests.
      eapply ready_then_interpret; eassumption.
    + intros H Hin. injection H as _ <-. destruct Hin.
Qed.

Lemma onPosition_success rid p s s' eff cb info :
  onPosition rid p s = (s', eff) ->
  In (CallOnSuccess cb info) eff ->
  consumed s s' info.
Proof.
  unfold onPosition. destruct (nth_error (requests s) rid) as [rq |].
  2:{ intros H Hin. injection H as _ <-. destruct Hin. }
  destruct (phase rq);
    try (intros H Hin; injection H as _ <-; destruct Hin; fail).
  destruct (onPositionFound p s rq) as [[s2 rq2] eff2] eqn:Hq.
  intros H Hin. injection H as <- <-. apply consumed_requests.
  eapply onPositionFound_success; eassumption.
Qed.

(** Every success of a step consumed a fresh heading. *)
Lemma step_success s ev s' eff cb info :
  step s ev = (s', eff) ->
  In (CallOnSuccess cb info) eff ->
  consumed s s' info.
Proof.
  destruct ev; cbn [step].
  - apply getOrb_success.
  - apply getOrb_success.
  - intros H Hin. injection H as _ <-. destruct Hin.
  - apply onUpdate_success.
  - destruct (locationService s); intros H Hin; injection H as _ <-;
      destruct Hin.
  - apply onPosition_success.
  - unfold onPositionError.
    destruct (nth_error (requests s) rid) as [rq |].
    2:{ intros H Hin. injection H as _ <-. destruct Hin. }
    destruct (phase rq);
      try (intros H Hin; injection H as _ <-; destruct Hin; fail).
    intros H Hin. injection H as _ <-.
    destruct (onFail rq);
      [destruct Hin as [Hin | []]; discriminate | destruct Hin].
  - destruct (specs s); intros H Hin; injection H as _ <-; destruct Hin.
  - destruct (specs s); intros H Hin; injection H as _ <-; destruct Hin.
Qed.

End Resolve.

Module Trace.

Lemma run_snoc s evs ev :
  run s (evs ++ [ev])
  = (fst (step (fst (run s evs)) ev),
     snd (run s evs) ++ snd (step (fst (run s evs)) ev)).
Proof.
  revert s. induction evs as [| e evs IH]; intros s; cbn [run app].
  - cbn [fst snd app]. destruct (step s ev) as [s1 e1]. cbn [fst snd].
    now rewrite app_nil_r.
  - destruct (step s e) as [s1 e1]. rewrite IH.
    destruct (run s1 evs) as [s2 e2]. cbn [fst snd].
    destruct (step s2 ev) as [s3 e3]. cbn [fst snd].
    now rewrite app_assoc.
Qed.

Lemma sample_known_run specs t0 d0 tr0 evs :
  let init := start specs t0 d0 tr0 in
  sample_known init evs (fst (run init evs)).
Proof.
  cbv zeta. induction evs as [| ev evs IH] using rev_ind.
  - exact I.
  - rewrite run_snoc. cbn [fst].
    set (init := start specs t0 d0 tr0) in *.
    set (s := fst (run init evs)) in *.
    assert (Hother : ~ is_heading_update ev ->
                     sample_known init (evs ++ [ev]) (fst (step s ev))).
    { intros Hn. destruct (Gate.step_sample s ev Hn) as [A [B C]].
      unfold sample_known in *. rewrite A, B.
      destruct (foundHeading s) as [h |], (foundHeadingTime s) as [t |];
        try exact IH.
      destruct IH as [Hsvc [evs1 [evs2 [E [F [G T]]]]]].
      split; [now apply C |].
      exists evs1, (evs2 ++ [ev]). repeat split; auto.
      - rewrite E, <- app_assoc. reflexivity.
      - apply Forall_app. split; [exact F |].
        constructor; [exact Hn | constructor]. }
    destruct ev; try (apply Hother; intros []; fail).
    clear Hother. cbn [step].
    destruct (locationService s) eqn:Hsvc; cbn [fst].
    + unfold sample_known. cbn. split; [exact Hsvc |].
      exists evs, []. repeat split; auto.
    + unfold sample_known in *.
      destruct (foundHeading s) as [h' |], (foundHeadingTime s) as [t |];
        try exact IH.
      destruct IH as [Hsvc' _]. congruence.
Qed.

End Trace.

(** C5: whenever a step of a run from the start calls [onSuccess], the
    heading reported to it is the latest heading the location service
    delivered, adjusted by [workingHeading], and that delivery happened
    strictly less than [headingLifetime] = 0.15 s before the clock of the
    step. *)
Theorem consumed_heading_is_fresh
  (specs : bool) (t0 : R) (d0 : Date) (tr0 : Transform)
  (evs : list Event) (ev : Event) (cb : Callback) (info : Info.t) :
  let init := start specs t0 d0 tr0 in
  let s := fst (run init evs) in
  In (CallOnSuccess cb info) (snd (step s ev)) ->
  exists h t,
    captured init evs h t
    /\ now s - t < headingLifetime
    /\ headingLifetime = 0.15
    /\ Info.userHeading info = workingHeading (fst (step s ev)) h.
Proof.
  cbv zeta. intros Hin.
  set (init := start specs t0 d0 tr0) in *.
  set (s := fst (run init evs)) in *.
  destruct (step s ev) as [s' eff] eqn:Hstep. cbn [fst snd] in *.
  destruct (Resolve.step_success _ _ _ _ _ _ Hstep Hin)
    as [h [t [Hh [Ht [Hlt Hu]]]]].
  pose proof (Trace.sample_known_run specs t0 d0 tr0 evs) as Hk.
  cbv zeta in Hk. fold init in Hk. fold s in Hk.
  unfold sample_known in Hk. rewrite Hh, Ht in Hk.
  destruct Hk as [_ Hc].
  exists h, t. repeat split; auto.
Qed.

Module Scenario.

Lemma normalize_unit (v : vec3) : Vec3.dot v v = 1 -> Vec3.normalize v = v.
Proof.
  intros H. unfold Vec3.normalize, Vec3.length. rewrite H, sqrt_1, Rinv_1.
  destruct v. unfold Vec3.uniformScale. cbn [vx vy vz]. f_equal; ring.
Qed.

Lemma vec3_eq a b c a' b' c' :
  a = a' -> b = b' -> c = c' -> mkVec3 a b c = mkVec3 a' b' c'.
Proof. intros -> -> ->. reflexivity. Qed.

Lemma atan2_0_1 : JS.atan2 0 1 = 0.
Proof.
  unfold JS.atan2. destruct (Rlt_dec 0 1); [| lra].
  replace (0 / 1) with 0 by field. apply atan_0.
Qed.

(** The upright device has no tilt. *)
Lemma offsetAngle_upright : offsetAngle uprightTransform = 0.
Proof.
  unfold offsetAngle, uprightTransform. cbn [forward up].
  replace (Vec3.dot (mkVec3 0 0 (-1)) Vec3.up) with 0
    by (unfold Vec3.dot, Vec3.up; cbn [vx vy vz]; ring).
  rewrite Rabs_R0. js_decide.
  replace (Vec3.cross (mkVec3 0 0 (-1)) Vec3.up) with (mkVec3 1 0 0)
    by (unfold Vec3.cross, Vec3.up; cbn [vx vy vz]; apply vec3_eq; ring).
  rewrite (normalize_unit (mkVec3 1 0 0))
    by (unfold Vec3.dot; cbn [vx vy vz]; ring).
  replace (Vec3.cross (mkVec3 1 0 0) (mkVec3 0 0 (-1))) with (mkVec3 0 1 0)
    by (unfold Vec3.cross; cbn [vx vy vz]; apply vec3_eq; ring).
  rewrite (normalize_unit (mkVec3 0 1 0))
    by (unfold Vec3.dot; cbn [vx vy vz]; ring).
  replace (Vec3.sub _ _) with (mkVec3 0 1 0)
    by (unfold Vec3.sub, Vec3.uniformScale, Vec3.dot; cbn [vx vy vz];
        apply vec3_eq; ring).
  rewrite (normalize_unit (mkVec3 0 1 0))
    by (unfold Vec3.dot; cbn [vx vy vz]; ring).
  replace (Vec3.dot (mkVec3 0 1 0) (mkVec3 0 1 0)) with 1
    by (unfold Vec3.dot; cbn [vx vy vz]; ring).
  replace (Vec3.dot (mkVec3 1 0 0) (mkVec3 0 1 0)) with 0
    by (unfold Vec3.dot; cbn [vx vy vz]; ring).
  apply atan2_0_1.
Qed.

Lemma checkTilt_upright s :
  transform s = uprightTransform ->
  checkTilt s = (false, set_tilt 0 s).
Proof.
  intros H. unfold checkTilt. cbn [awaitUpright negb].
  rewrite H, offsetAngle_upright, Rabs_R0. unfold uprightThreshold.
  js_decide. reflexivity.
Qed.

Lemma run_resolvingPrefix :
  run (start false 2 0%Z uprightTransform) resolvingPrefix
  = (awaitingState, [CreateLocationService; GetCurrentPosition 0]).
Proof.
  unfold resolvingPrefix, start, awaitingState.
  cbn [run step]. unfold getSun, getOrb.
  cbn [isSearching sunSearching set_isSearching locationService now
       set_locationService requests List.length].
  unfold initialWait. js_decide.
  unfold requestUserPosition. cbn [foundPosition].
  unfold onPosition.
  cbn [set_requests requests nth_error app set_phase phase orbType onSuccess
       onFail foundPosition now today transform specs sunSearching
       moonSearching locationService foundHeading foundHeadingTime tilt
       frontCameraFlip].
  unfold onPositionFound, isReady.
  cbn [foundHeading set_foundPosition set_phase store orbType onSuccess onFail
       foundPosition phase set_requests requests now today transform specs
       sunSearching moonSearching locationService foundHeadingTime tilt
       frontCameraFlip set_heading app].
  reflexivity.
Qed.

Lemma isReady_awaitingState :
  isReady awaitingState = (true, set_tilt 0 awaitingState).
Proof.
  unfold isReady, awaitingState at 1 2 3.
  cbn [foundHeading foundHeadingTime checkTimeStamp now].
  unfold headingLifetime. js_decide.
  rewrite checkTilt_upright by reflexivity. reflexivity.
Qed.

(** The frame's update resolves the request: [onSuccess] is called once,
    with the heading 90 the service delivered. *)
Lemma resolving_step :
  exists info,
    step (fst (run (start false 2 0%Z uprightTransform) resolvingPrefix))
         (UpdateEvent 0)
    = (resolvedState, [CallOnSuccess 1%nat info])
    /\ Info.userHeading info = 90.
Proof.
  rewrite run_resolvingPrefix. cbn [fst step]. unfold onUpdate.
  unfold awaitingState at 1. cbn [requests nth_error phase].
  rewrite isReady_awaitingState.
  unfold interpretTrackingData, awaitingState. st.
  eexists. split; [reflexivity |].
  cbn [Info.userHeading]. unfold workingHeading.
  cbn [frontCameraFlip specs tilt andb]. js_decide. reflexivity.
Qed.

End Scenario.

Lemma consumed_heading_is_fresh_witness :
  let init := start false 2 0%Z uprightTransform in
  let s := fst (run init resolvingPrefix) in
  exists info,
    In (CallOnSuccess 1%nat info) (snd (step s (UpdateEvent 0)))
    /\ exists h t,
         captured init resolvingPrefix h t
         /\ now s - t < headingLifetime
         /\ headingLifetime = 0.15
         /\ Info.userHeading info
            = workingHeading (fst (step s (UpdateEvent 0))) h.
Proof.
  cbv zeta.
  destruct Scenario.resolving_step as [info [Hstep _]].
  assert (Hin : In (CallOnSuccess 1%nat info)
                   (snd (step (fst (run (start false 2 0%Z uprightTransform)
                                        resolvingPrefix)) (UpdateEvent 0)))).
  { rewrite Hstep. left. reflexivity. }
  exists info. split; [exact Hin |].
  exact (consumed_heading_is_fresh false 2 0%Z uprightTransform
           resolvingPrefix (UpdateEvent 0) 1%nat info Hin).
Defined.

(* ================================================================== *)
(** ** The closures of a run *)
(* ================================================================== *)

Module Closures.

Lemma store_ok rid rq rs :
  Forall request_ok rs -> request_ok rq -> Forall request_ok (store rid rq rs).
Proof.
  intros Hrs Hrq. revert rid. induction Hrs as [| r rs Hr Hrs IH]; intros rid.
  - destruct rid; constructor.
  - destruct rid; cbn [store]; constructor; auto.
Qed.

Lemma nth_ok rid rq rs :
  Forall request_ok rs -> nth_error rs rid = Some rq -> request_ok rq.
Proof.
  intros Hrs Hn. apply nth_error_In in Hn.
  rewrite Forall_forall in Hrs. now apply Hrs.
Qed.

Lemma checkTilt_requests s : requests (snd (checkTilt s)) = requests s.
Proof. unfold checkTilt. destruct (negb awaitUpright); reflexivity. Qed.

Lemma isReady_requests s : requests (snd (isReady s)) = requests s.
Proof.
  unfold isReady. break_tests; try reflexivity.
  match goal with H : checkTilt s = _ |- _ =>
    pose proof (checkTilt_requests s) as Hr; rewrite H in Hr; exact Hr end.
Qed.

Lemma interpretTrackingData_requests s rq :
  requests (fst (interpretTrackingData s rq)) = requests s.
Proof.
  unfold interpretTrackingData.
  assert (H : requests (set_isSearching (orbType rq) false s) = requests s)
    by (destruct (orbType rq); reflexivity).
  break_tests; exact H.
Qed.

(** [onPositionFound] leaves the stored closures alone and hands back a
    closure in order. *)
Lemma onPositionFound_ok p s rq :
  requests (fst (fst (onPositionFound p s rq))) = requests s
  /\ request_ok (snd (fst (onPositionFound p s rq))).
Proof.
  unfold onPositionFound.
  pose proof (isReady_requests s) as H1. destruct (isReady s) as [ready s1].
  cbn [snd] in H1. destruct ready.
  - pose proof (interpretTrackingData_requests s1 (set_foundPosition p rq))
      as H2.
    destruct (interpretTrackingData s1 (set_foundPosition p rq)) as [s2 eff].
    cbn [fst snd] in *. split; [congruence | exact I].
  - cbn [fst snd]. split; [exact H1 |].
    unfold request_ok. cbn. discriminate.
Qed.

Lemma requestUserPosition_ok rid s rq :
  requests (fst (fst (requestUserPosition rid s rq))) = requests s
  /\ request_ok (snd (fst (requestUserPosition rid s rq))).
Proof.
  unfold requestUserPosition. destruct (foundPosition rq).
  - apply onPositionFound_ok.
  - split; [reflexivity | exact I].
Qed.

Lemma getOrb_ok o a b s : requests_ok s -> requests_ok (fst (getOrb o a b s)).
Proof.
  intros Hs. unfold getOrb. destruct a as [succ |]; [| exact Hs].
  destruct (isSearching s o); [exact Hs |].
  set (s1 := set_isSearching o true s).
  assert (H1 : requests s1 = requests s) by (destruct o; reflexivity).
  assert (Hnew : request_ok (mkRequest o succ b None AwaitLensStart))
    by reflexivity.
  unfold requests_ok in *.
  destruct (locationService s1).
  - destruct (JS.gtb (now s1) initialWait).
    + pose proof (requestUserPosition_ok (List.length (requests s1)) s1
                    (mkRequest o succ b None AwaitLensStart)) as [A B].
      destruct (requestUserPosition _ s1 _) as [[s2 rq2] eff].
      cbn [fst snd set_requests requests] in *.
      apply Forall_app. split; [congruence | constructor; auto].
    + cbn [fst set_requests requests].
      apply Forall_app. split; [congruence | constructor; auto].
  - set (s1' := set_locationService true s1).
    assert (H1' : requests s1' = requests s) by exact H1.
    destruct (JS.gtb (now s1') initialWait).
    + pose proof (requestUserPosition_ok (List.length (requests s1')) s1'
                    (mkRequest o succ b None AwaitLensStart)) as [A B].
      destruct (requestUserPosition _ s1' _) as [[s2 rq2] eff].
      cbn [fst snd set_requests requests] in *.
      apply Forall_app. split; [congruence | constructor; auto].
    + cbn [fst set_requests requests].
      apply Forall_app. split; [congruence | constructor; auto].
Qed.

Lemma onUpdate_ok rid s : requests_ok s -> requests_ok (fst (onUpdate rid s)).
Proof.
  intros Hs. unfold onUpdate.
  destruct (nth_error (requests s) rid) as [rq |]; [| exact Hs].
  unfold requests_ok in *.
  destruct (phase rq); try exact Hs.
  - destruct (JS.gtb (now s) initialWait); [| exact Hs].
    pose proof (requestUserPosition_ok rid s rq) as [A B].
    destruct (requestUserPosition rid s rq) as [[s2 rq2] eff].
    cbn [fst snd set_requests requests] in *.
    apply store_ok; [congruence | exact B].
  - pose proof (isReady_requests s) as H1. destruct (isReady s) as [ready s1].
    cbn [snd] in H1. destruct ready; [| cbn [fst]; congruence].
    pose proof (interpretTrackingData_requests s1 rq) as H2.
    destruct (interpretTrackingData s1 rq) as [s2 eff].
    cbn [fst snd set_requests requests] in *.
    apply store_ok; [congruence | exact I].
Qed.

Lemma step_ok s ev : requests_ok s -> requests_ok (fst (step s ev)).
Proof.
  intros Hs. destruct ev; cbn [step].
  - now apply getOrb_ok.
  - now apply getOrb_ok.
  - exact Hs.
  - now apply onUpdate_ok.
  - destruct (locationService s); exact Hs.
  - unfold onPosition.
    destruct (nth_error (requests s) rid) as [rq |]; [| exact Hs].
    destruct (phase rq); try exact Hs.
    pose proof (onPositionFound_ok p s rq) as [A B].
    destruct (onPositionFound p s rq) as [[s2 rq2] eff].
    unfold requests_ok in *. cbn [fst snd set_requests requests] in *.
    apply store_ok; [congruence | exact B].
  - unfold onPositionError.
    destruct (nth_error (requests s) rid) as [rq |]; [| exact Hs].
    destruct (phase rq); try exact Hs.
    unfold requests_ok in *. cbn [fst set_requests requests].
    apply store_ok; [exact Hs | exact I].
  - destruct (specs s); exact Hs.
  - destruct (specs s); exact Hs.
Qed.

Lemma run_ok specs t0 d0 tr0 evs :
  requests_ok (fst (run (start specs t0 d0 tr0) evs)).
Proof.
  induction evs as [| ev evs IH] using rev_ind.
  - constructor.
  - rewrite Trace.run_snoc. cbn [fst]. now apply step_ok.
Qed.

(** The test [if(foundPosition)] of [requestUserPosition] never succeeds in a
    run: the update callback that waited for the lens start asks the location
    service for a position. *)
Lemma lens_start_fetches specs t0 d0 tr0 evs rid rq :
  let s := fst (run (start specs t0 d0 tr0) evs) in
  nth_error (requests s) rid = Some rq ->
  phase rq = AwaitLensStart ->
  initialWait < now s ->
  snd (onUpdate rid s) = [GetCurrentPosition rid].
Proof.
  cbv zeta. intros Hn Hp Ht.
  pose proof (nth_ok _ _ _ (run_ok specs t0 d0 tr0 evs) Hn) as Hok.
  unfold request_ok in Hok. rewrite Hp in Hok.
  unfold onUpdate. rewrite Hn, Hp, (proj2 (JSFacts.gtb_true _ _) Ht).
  unfold requestUserPosition. rewrite Hok. reflexivity.
Qed.

(** [interpretTrackingData] always finds a heading and a position in a run:
    no step throws for the lack of one. *)
Lemma step_no_type_error s ev :
  requests_ok s -> ~ In (Throw "TypeError") (snd (step s ev)).
Proof.
  intros Hs Hin.
  assert (Hi : forall s0 s1 rq,
             isReady s0 = (true, s1) -> foundPosition rq <> None ->
             ~ In (Throw "TypeError") (snd (interpretTrackingData s1 rq))).
  { intros s0 s1 rq Hr Hp Hin'.
    destruct (Resolve.isReady_true _ _ Hr) as [h [t [Hh [_ [_ [_ Hs1]]]]]].
    pose proof (Gate.checkTilt_sample s0) as [Hsame _].
    rewrite <- Hs1 in Hsame. unfold interpretTrackingData in Hin'.
    assert (Hset : foundHeading (set_isSearching (orbType rq) false s1)
                   = Some h)
      by (destruct (orbType rq); cbn; congruence).
    rewrite Hset in Hin'. destruct (foundPosition rq); [| now apply Hp].
    destruct Hin' as [Hin' | []]. discriminate. }
  assert (Hf : forall p s0 rq,
             ~ In (Throw "TypeError") (snd (onPositionFound p s0 rq))).
  { intros p s0 rq Hin'. unfold onPositionFound in Hin'.
    destruct (isReady s0) as [ready s1] eqn:Hr. destruct ready.
    - apply (Hi s0 s1 (set_foundPosition p rq) Hr); [discriminate |].
      destruct (interpretTrackingData s1 (set_foundPosition p rq)).
      exact Hin'.
    - destruct Hin'. }
  assert (Hq : forall rid s0 rq,
             ~ In (Throw "TypeError") (snd (requestUserPosition rid s0 rq))).
  { intros rid s0 rq Hin'. unfold requestUserPosition in Hin'.
    destruct (foundPosition rq); [now apply Hf in Hin' |].
    destruct Hin' as [Hin' | []]. discriminate. }
  assert (Hg : forall o a b, ~ In (Throw "TypeError") (snd (getOrb o a b s))).
  { intros o a b Hin'. unfold getOrb in Hin'.
    destruct a as [succ |].
    2:{ destruct Hin' as [Hin' | []]. discriminate. }
    destruct (isSearching s o).
    { destruct b; [destruct Hin' as [Hin' | []]; discriminate | destruct Hin']. }
    destruct (locationService (set_isSearching o true s)).
    - destruct (JS.gtb _ initialWait); [| destruct Hin'].
      match type of Hin' with
      | context [requestUserPosition ?r ?s0 ?q] =>
        pose proof (Hq r s0 q) as Hn;
        destruct (requestUserPosition r s0 q) as [[s2 rq2] eff]
      end.
      cbn [snd app] in *. now apply Hn.
    - destruct (JS.gtb _ initialWait).
      + match type of Hin' with
        | context [requestUserPosition ?r ?s0 ?q] =>
          pose proof (Hq r s0 q) as Hn;
          destruct (requestUserPosition r s0 q) as [[s2 rq2] eff]
        end.
        cbn [snd app] in *. destruct Hin' as [Hin' | Hin']; [discriminate |].
        now apply Hn.
      + destruct Hin' as [Hin' | []]. discriminate. }
  destruct ev; cbn [step] in Hin.
  - now apply Hg in Hin.
  - now apply Hg in Hin.
  - destruct Hin.
  - unfold onUpdate in Hin.
    destruct (nth_error (requests s) rid) as [rq |] eqn:Hn; [| destruct Hin].
    pose proof (nth_ok _ _ _ Hs Hn) as Hok. unfold request_ok in Hok.
    destruct (phase rq); try (destruct Hin; fail).
    + destruct (JS.gtb (now s) initialWait); [| destruct Hin].
      pose proof (Hq rid s rq) as Hn'.
      destruct (requestUserPosition rid s rq) as [[s2 rq2] eff].
      now apply Hn'.
    + destruct (isReady s) as [ready s1] eqn:Hr.
      destruct ready; [| destruct Hin].
      apply (Hi s s1 rq Hr Hok).
      destruct (interpretTrackingData s1 rq). exact Hin.
  - destruct (locationService s); destruct Hin.
  - unfold onPosition in Hin.
    destruct (nth_error (requests s) rid) as [rq |]; [| destruct Hin].
    destruct (phase rq); try (destruct Hin; fail).
    pose proof (Hf p s rq) as Hn'.
    destruct (onPositionFound p s rq) as [[s2 rq2] eff]. now apply Hn'.
  - unfold onPositionError in Hin.
    destruct (nth_error (requests s) rid) as [rq |]; [| destruct Hin].
    destruct (phase rq); try (destruct Hin; fail).
    destruct (onFail rq); [destruct Hin as [Hin | []]; discriminate
                          | destruct Hin].
  - destruct (specs s); destruct Hin.
  - destruct (specs s); destruct Hin.
Qed.

Lemma run_no_type_error specs t0 d0 tr0 evs :
  ~ In (Throw "TypeError") (snd (run (start specs t0 d0 tr0) evs)).
Proof.
  induction evs as [| ev evs IH] using rev_ind.
  - intros [].
  - rewrite Trace.run_snoc. cbn [snd]. intros Hin.
    apply in_app_or in Hin. destruct Hin as [Hin | Hin]; [now apply IH |].
    revert Hin. apply step_no_type_error. apply run_ok.
Qed.

End Closures.



Module Fetch.

(** A call that is accepted after the initial wait asks the location service
    for a position, whatever was found before: the closure starts with no
    position of its own. *)
Lemma accepted_call_fetches (s : State) (o : OrbType.t) (succ : Callback)
  (onFail : option Callback) :
  isSearching s o = false ->
  initialWait < now s ->
  exists s' created,
    getOrb o (Some succ) onFail s
    = (s', created ++ [GetCurrentPosition (List.length (requests s))]).
Proof.
  intros Hs Ht. unfold getOrb. rewrite Hs.
  set (s1 := set_isSearching o true s).
  assert (Hn : now s1 = now s) by (destruct o; reflexivity).
  assert (Hr : requests s1 = requests s) by (destruct o; reflexivity).
  destruct (locationService s1); cbn [now set_locationService requests];
    rewrite Hn, (proj2 (JSFacts.gtb_true _ _) Ht), Hr;
    unfold requestUserPosition; cbn [foundPosition];
    eexists _, _; reflexivity.
Qed.

(** The example scene asks the service twice. *)
Lemma exampleScene_fetches_twice :
  fetches (snd (run (start false 0 0%Z uprightTransform) exampleScene))
  = 2%nat.
Proof.
  unfold exampleScene, start. cbn [run step]. unfold getMoon, getSun, getOrb.
  gate_eval. unfold onUpdate. gate_eval.
  unfold requestUserPosition. gate_eval. reflexivity.
Qed.

End Fetch.

(** C3, at the failing input: a request for the Sun resolves, with a position
    found for it, and the next request for the Sun asks the location service
    for a position again; the service is asked twice in the run. *)
Theorem askAgain_fetches_twice :
  fetches (snd (run (start false 2 0%Z uprightTransform) askAgain)) = 2%nat.
Proof.
  unfold askAgain.
  replace (resolvingPrefix ++ [UpdateEvent 0; GetSun (Some 5%nat) None])
    with ((resolvingPrefix ++ [UpdateEvent 0]) ++ [GetSun (Some 5%nat) None])
    by (rewrite <- app_assoc; reflexivity).
  rewrite !Trace.run_snoc.
  destruct Scenario.resolving_step as [info [Hstep _]].
  rewrite Hstep, Scenario.run_resolvingPrefix. cbn [fst snd step].
  unfold getSun, getOrb, resolvedState. gate_eval.
  unfold requestUserPosition. gate_eval. reflexivity.
Qed.

Module Idle.

(** The success path clears the flag of its orb. *)
Lemma interpretTrackingData_idles (s : State) (rq : Request) :
  isSearching (fst (interpretTrackingData s rq)) (orbType rq) = false.
Proof.
  unfold interpretTrackingData.
  assert (H : isSearching (set_isSearching (orbType rq) false s) (orbType rq)
              = false) by (destruct (orbType rq); reflexivity).
  break_tests; exact H.
Qed.

(** The error path of the location fetch leaves both flags as they are. *)
Lemma onPositionError_keeps_flags (rid : nat) (err : string) (s : State)
  (o : OrbType.t) :
  isSearching (fst (onPositionError rid err s)) o = isSearching s o.
Proof.
  unfold onPositionError.
  destruct (nth_error (requests s) rid) as [rq |]; [| reflexivity].
  destruct (phase rq); destruct o; reflexivity.
Qed.

End Idle.

(** C4, at the failing input: the location fetch of a request for the Sun
    fails and [onFail] is told so; the Sun is still marked as searched, and
    the next request for the Sun is rejected as already active. *)
Theorem failure_leaves_searching :
  let result := run (start false 2 0%Z uprightTransform) retryAfterFailure in
  isSearching (fst result) OrbType.Sun = true
  /\ snd result
     = [CreateLocationService; GetCurrentPosition 0;
        CallOnFail 2%nat "Location unavailable";
        CallOnFail 4%nat alreadyActive].
Proof.
  cbv zeta. unfold retryAfterFailure, start. cbn [run step].
  unfold getSun, getOrb. gate_eval. unfold requestUserPosition. gate_eval.
  unfold onPositionError. gate_eval. split; reflexivity.
Qed.

(** C10: when the stored heading is 0, [isReady] answers false and changes
    nothing, whatever the age of the sample and the tilt; an update callback
    that waits for the heading does nothing, and a position that arrives
    leaves its request waiting.  When the stored heading is not 0, readiness
    is decided by the age of the sample and the tilt alone. *)
Theorem zero_heading_is_not_ready (s : State) :
  (foundHeading s = Some 0 ->
   isReady s = (false, s)
   /\ (forall rid rq,
         nth_error (requests s) rid = Some rq -> phase rq = AwaitHeading ->
         onUpdate rid s = (s, []))
   /\ (forall p rq,
         onPositionFound p s rq
         = (s, set_phase AwaitHeading (set_foundPosition p rq), [])))
  /\ (forall h, foundHeading s = Some h -> h <> 0 ->
      isReady s
      = if checkTimeStamp s (foundHeadingTime s) headingLifetime
        then (negb (fst (checkTilt s)), snd (checkTilt s))
        else (false, s)).
Proof.
  split.
  - intros H0.
    assert (Hr : isReady s = (false, s)).
    { unfold isReady. rewrite H0, JSFacts.truthy_0. reflexivity. }
    split; [exact Hr |]. split.
    + intros rid rq Hn Hp. unfold onUpdate. rewrite Hn, Hp, Hr. reflexivity.
    + intros p rq. unfold onPositionFound. rewrite Hr. reflexivity.
  - intros h Hh Hne. unfold isReady. rewrite Hh.
    rewrite (proj2 (JSFacts.truthy_true h) Hne).
    destruct (checkTimeStamp s (foundHeadingTime s) headingLifetime);
      [| reflexivity].
    destruct (checkTilt s). reflexivity.
Qed.

Lemma zero_heading_is_not_ready_witness :
  (foundHeading dueNorthState = Some 0
   /\ checkTimeStamp dueNorthState (foundHeadingTime dueNorthState)
                     headingLifetime = true
   /\ fst (checkTilt dueNorthState) = false
   /\ isReady dueNorthState = (false, dueNorthState)
   /\ onUpdate 0 dueNorthState = (dueNorthState, []))
  /\ (foundHeading awaitingState = Some 90
      /\ isReady awaitingState
         = if checkTimeStamp awaitingState (foundHeadingTime awaitingState)
                             headingLifetime
           then (negb (fst (checkTilt awaitingState)),
                 snd (checkTilt awaitingState))
           else (false, awaitingState)).
Proof.
  destruct (zero_heading_is_not_ready dueNorthState) as [H0 _].
  destruct (zero_heading_is_not_ready awaitingState) as [_ H1].
  split.
  - split; [reflexivity |]. split.
    { unfold dueNorthState, checkTimeStamp. gate_eval. reflexivity. }
    split.
    { rewrite Scenario.checkTilt_upright; reflexivity. }
    destruct (H0 eq_refl) as [Hr [Hu _]].
    split; [exact Hr |]. apply (Hu 0%nat _ eq_refl eq_refl).
  - split; [reflexivity |]. apply (H1 90 eq_refl). lra.
Defined.

(* ================================================================== *)
(** ** The helpers of the orientation pipeline *)
(* ================================================================== *)

(** X1: [remap] is the affine map that sends [low1] to [low2] and [high1] to
    [high2]; a value between [low1] and [high1] lands between [low2] and
    [high2]. *)
Theorem remap_affine (value low1 high1 low2 high2 : R) :
  low1 < high1 -> low2 <= high2 ->
  remap low1 low1 high1 low2 high2 = low2
  /\ remap high1 low1 high1 low2 high2 = high2
  /\ (low1 <= value <= high1 ->
      low2 <= remap value low1 high1 low2 high2 <= high2).
Proof.
  intros H1 H2. unfold remap. repeat split.
  - field. lra.
  - field. lra.
  - destruct H as [Ha Hb].
    assert (Ht : 0 <= (value - low1) / (high1 - low1)).
    { apply Rmult_le_pos; [lra |]. apply Rlt_le, Rinv_0_lt_compat. lra. }
    replace ((high2 - low2) * (value - low1) / (high1 - low1))
      with ((high2 - low2) * ((value - low1) / (high1 - low1)))
      by (field; lra).
    nra.
  - destruct H as [Ha Hb].
    assert (Ht : (value - low1) / (high1 - low1) <= 1).
    { apply (Rmult_le_reg_r (high1 - low1)); [lra |].
      replace ((value - low1) / (high1 - low1) * (high1 - low1))
        with (value - low1) by (field; lra).
      lra. }
    replace ((high2 - low2) * (value - low1) / (high1 - low1))
      with ((high2 - low2) * ((value - low1) / (high1 - low1)))
      by (field; lra).
    nra.
Qed.

Lemma remap_affine_witness :
  -0.7 < 0.7 /\ -26.25 <= 26.25
  /\ remap (-0.7) (-0.7) 0.7 (-26.25) 26.25 = -26.25
  /\ remap 0.7 (-0.7) 0.7 (-26.25) 26.25 = 26.25
  /\ -26.25 <= remap 0.35 (-0.7) 0.7 (-26.25) 26.25 <= 26.25.
Proof.
  assert (H1 : -0.7 < 0.7) by lra.
  assert (H2 : -26.25 <= 26.25) by lra.
  destruct (remap_affine 0.35 (-0.7) 0.7 (-26.25) 26.25 H1 H2) as [A [B C]].
  repeat split; try assumption; apply C; lra.
Defined.

Lemma degToRad_plus a b : degToRad (a + b) = degToRad a + degToRad b.
Proof. unfold degToRad. ring. Qed.

Lemma rotateY_sum (vec : vec3) (a b : R) :
  rotateY (rotateY vec a) b = rotateY vec (a + b).
Proof.
  unfold rotateY. cbv zeta. cbn [vx vy vz].
  rewrite degToRad_plus, sin_plus, cos_plus.
  apply Scenario.vec3_eq; ring.
Qed.

Lemma rotateY_zero (vec : vec3) : rotateY vec 0 = vec.
Proof.
  unfold rotateY, degToRad. cbv zeta. rewrite Rmult_0_l, sin_0, cos_0.
  destruct vec. cbn [vx vy vz]. apply Scenario.vec3_eq; ring.
Qed.

Lemma rotateY_dot (a b : vec3) (degrees : R) :
  Vec3.dot (rotateY a degrees) (rotateY b degrees) = Vec3.dot a b.
Proof.
  unfold rotateY, Vec3.dot. cbv zeta. cbn [vx vy vz].
  pose proof (sin2_cos2 (degToRad degrees)) as Hsc. unfold Rsqr in Hsc.
  set (s := sin (degToRad degrees)) in *.
  set (c := cos (degToRad degrees)) in *.
  replace ((vx a * c - vz a * s) * (vx b * c - vz b * s) + vy a * vy b
           + (vx a * s + vz a * c) * (vx b * s + vz b * c))
    with ((vx a * vx b + vz a * vz b) * (s * s + c * c) + vy a * vy b)
    by ring.
  rewrite Hsc. ring.
Qed.

(** X2: [rotateY] keeps the vertical component and the dot product of two
    vectors turned by the same angle, hence lengths and angles. *)
Theorem rotateY_isometry (v w : vec3) (degrees : R) :
  vy (rotateY v degrees) = vy v
  /\ Vec3.dot (rotateY v degrees) (rotateY w degrees) = Vec3.dot v w
  /\ norm2 (rotateY v degrees) = norm2 v.
Proof.
  split; [reflexivity |]. split; apply rotateY_dot.
Qed.

(** X3: turning by [a] and then by [b] is turning by [a + b]; turning by 0
    changes nothing; turning back undoes a turn. *)
Theorem rotateY_composes (vec : vec3) (a b : R) :
  rotateY (rotateY vec a) b = rotateY vec (a + b)
  /\ rotateY vec 0 = vec
  /\ rotateY (rotateY vec a) (- a) = vec.
Proof.
  split; [apply rotateY_sum |]. split; [apply rotateY_zero |].
  rewrite rotateY_sum. replace (a + - a) with 0 by ring. apply rotateY_zero.
Qed.

Lemma orbDirection_unit (azimuthDeg altitudeDeg : R) :
  norm2 (orbDirection azimuthDeg altitudeDeg) = 1.
Proof.
  unfold norm2, orbDirection, Vec3.dot. cbv zeta. cbn [vx vy vz].
  pose proof (sin2_cos2 (degToRad azimuthDeg)) as Ha.
  pose proof (sin2_cos2 (degToRad altitudeDeg)) as Hb.
  unfold Rsqr in *.
  set (sa := sin (degToRad azimuthDeg)) in *.
  set (ca := cos (degToRad azimuthDeg)) in *.
  set (sb := sin (degToRad altitudeDeg)) in *.
  set (cb := cos (degToRad altitudeDeg)) in *.
  replace (cb * sa * (cb * sa) + sb * sb + - cb * ca * (- cb * ca))
    with (cb * cb * (sa * sa + ca * ca) + sb * sb) by ring.
  rewrite Ha. lra.
Qed.

(** X4: [orbDirection] returns a vector of length 1; for an altitude the
    solvers can report, its vertical component is positive above the horizon,
    negative below, and zero on it. *)
Theorem orbDirection_unit_and_upward (azimuthDeg altitudeDeg : R) :
  norm2 (orbDirection azimuthDeg altitudeDeg) = 1
  /\ (-90.0000000001 < altitudeDeg < 90.0000000001 ->
      (0 < altitudeDeg -> 0 < vy (orbDirection azimuthDeg altitudeDeg))
      /\ (altitudeDeg < 0 -> vy (orbDirection azimuthDeg altitudeDeg) < 0)
      /\ (altitudeDeg = 0 -> vy (orbDirection azimuthDeg altitudeDeg) = 0)).
Proof.
  split; [apply orbDirection_unit |]. intros [Hlo Hhi].
  unfold orbDirection. cbv zeta. cbn [vy].
  pose proof PI_digits as [Hp1 Hp2].
  repeat split.
  - intros H. apply sin_gt_0; unfold degToRad, DEG_TO_RAD; lra.
  - intros H. apply sin_lt_0_var; unfold degToRad, DEG_TO_RAD; lra.
  - intros ->. unfold degToRad. rewrite Rmult_0_l. apply sin_0.
Qed.

Lemma orbDirection_unit_and_upward_witness :
  -90.0000000001 < 45 < 90.0000000001
  /\ 0 < 45
  /\ norm2 (orbDirection 120 45) = 1
  /\ 0 < vy (orbDirection 120 45).
Proof.
  assert (H : -90.0000000001 < 45 < 90.0000000001) by lra.
  assert (H0 : 0 < 45) by lra.
  destruct (orbDirection_unit_and_upward 120 45) as [A B].
  destruct (B H) as [C _].
  split; [exact H |]. split; [exact H0 |].
  split; [exact A | exact (C H0)].
Defined.

(* ================================================================== *)
(** ** The coordinate helpers *)
(* ================================================================== *)

Module Transit.

(** The arcsine is monotone on [-1, 1]. *)
Lemma asin_le (a b : R) : -1 <= a -> a <= b -> b <= 1 -> asin a <= asin b.
Proof.
  intros Ha Hab Hb.
  pose proof (asin_bound a) as [A1 A2]. pose proof (asin_bound b) as [B1 B2].
  apply sin_incr_0; try lra.
  rewrite !sin_asin by lra. exact Hab.
Qed.

(** An arcsine is within an angle of the first quadrant when its argument is
    within the sine of that angle. *)
Lemma asin_within (x theta : R) :
  0 <= theta <= PI / 2 -> - sin theta <= x <= sin theta ->
  - theta <= asin x <= theta.
Proof.
  intros Ht [Hlo Hhi].
  pose proof (SIN_bound theta) as [S1 S2].
  assert (Hs : asin (sin theta) = theta) by (apply asin_sin; lra).
  split.
  - apply Rle_trans with (asin (- sin theta)).
    + rewrite asin_opp, Hs. lra.
    + apply asin_le; lra.
  - apply Rle_trans with (asin (sin theta)).
    + apply asin_le; lra.
    + rewrite Hs. lra.
Qed.


Lemma atan2_0_pos (x : R) : 0 < x -> JS.atan2 0 x = 0.
Proof.
  intros Hx. unfold JS.atan2. destruct (Rlt_dec 0 x); [| tauto].
  replace (0 / x) with 0 by (field; lra). apply atan_0.
Qed.

Lemma atan2_0_neg (x : R) : x < 0 -> JS.atan2 0 x = PI.
Proof.
  intros Hx. unfold JS.atan2. destruct (Rlt_dec 0 x); [lra |].
  destruct (Rlt_dec x 0); [| tauto]. destruct (Rle_dec 0 0); [| lra].
  replace (0 / x) with 0 by (field; lra). rewrite atan_0. ring.
Qed.

(** The second argument [getAzAlt] gives [Math.atan2] at hour angle 0 has the
    sign of [phi - dec]. *)
Lemma transit_abscissa (phi dec : R) :
  - (PI / 2) < dec < PI / 2 ->
  (cos 0 * sin phi - tan dec * cos phi) * cos dec = sin (phi - dec).
Proof.
  intros Hd. assert (Hc : 0 < cos dec) by (apply cos_gt_0; lra).
  rewrite cos_0, sin_minus. unfold tan. field. lra.
Qed.

End Transit.



(** X6: at hour angle 0, with the declination strictly inside a quarter
    turn, the azimuth both solvers would report is exactly 180 (due south)
    for an observer north of the declination, and [radToDeg PI - 180], a
    positive angle below 0.0000000001 (due north), for one south of it. *)
Theorem transit_azimuth (phi dec : R) :
  - (PI / 2) < dec < PI / 2 ->
  (dec < phi < dec + PI ->
   JS.rem (radToDeg (az_rad (getAzAlt 0 phi dec)) + 180) 360 = 180)
  /\ (dec - PI < phi < dec ->
      JS.rem (radToDeg (az_rad (getAzAlt 0 phi dec)) + 180) 360
      = radToDeg PI - 180
      /\ 0 < radToDeg PI - 180 < 0.0000000001).
Proof.
  intros Hd. assert (Hc : 0 < cos dec) by (apply cos_gt_0; lra).
  pose proof (Transit.transit_abscissa phi dec Hd) as Hx.
  unfold getAzAlt. cbn [az_rad]. rewrite sin_0.
  set (x := cos 0 * sin phi - tan dec * cos phi) in *.
  split.
  - intros Hp. assert (Hs : 0 < sin (phi - dec)) by (apply sin_gt_0; lra).
    assert (0 < x) by nra.
    rewrite Transit.atan2_0_pos by assumption.
    unfold radToDeg. rewrite Rmult_0_l, Rplus_0_l.
    apply JSFacts.rem_360_small. lra.
  - intros Hp.
    assert (Hs : sin (phi - dec) < 0) by (apply sin_lt_0_var; lra).
    assert (x < 0) by nra.
    rewrite Transit.atan2_0_neg by assumption.
    pose proof RAD_TO_DEG_half_turn as [H1 H2].
    split; [| lra].
    rewrite JSFacts.rem_360_wrap by lra. ring.
Qed.

Lemma transit_azimuth_witness :
  - (PI / 2) < 0.4 < PI / 2
  /\ 0.4 < 0.9 < 0.4 + PI
  /\ JS.rem (radToDeg (az_rad (getAzAlt 0 0.9 0.4)) + 180) 360 = 180
  /\ 0.4 - PI < -0.2 < 0.4
  /\ JS.rem (radToDeg (az_rad (getAzAlt 0 (-0.2) 0.4)) + 180) 360
     = radToDeg PI - 180.
Proof.
  pose proof PI_lower as Hp.
  assert (Hd : - (PI / 2) < 0.4 < PI / 2) by lra.
  assert (H1 : 0.4 < 0.9 < 0.4 + PI) by lra.
  assert (H2 : 0.4 - PI < -0.2 < 0.4) by lra.
  split; [exact Hd |]. split; [exact H1 |].
  split; [exact (proj1 (transit_azimuth 0.9 0.4 Hd) H1) |].
  split; [exact H2 |].
  exact (proj1 (proj2 (transit_azimuth (-0.2) 0.4 Hd) H2)).
Defined.

Lemma declination_bounds (L d : R) :
  (- Sun.earthTiltRad <= Sun.getDeclination L <= Sun.earthTiltRad)
  /\ (- degToRad (23.44 + 5.128) <= Moon.dec (Moon.getMoonCoords d)
      <= degToRad (23.44 + 5.128)).
Proof.
  pose proof PI_digits as [Hp1 Hp2].
  split.
  - unfold Sun.getDeclination. apply Transit.asin_within.
    + unfold Sun.earthTiltRad, degToRad, DEG_TO_RAD. lra.
    + pose proof (SIN_bound L) as [S1 S2].
      assert (0 < sin Sun.earthTiltRad) by apply RefFacts.sin_earthTilt_pos.
      split; nra.
  - unfold Moon.getMoonCoords. cbv zeta. cbn [Moon.dec].
    set (e := degToRad 23.44).
    set (u := sin (degToRad (93.272 + 13.229350 * d))).
    set (b := degToRad (5.128 * u)).
    set (l := _ + degToRad (6.289 * sin _)).
    assert (Hu : -1 <= u <= 1) by apply SIN_bound.
    assert (He : e = 23.44 * DEG_TO_RAD) by reflexivity.
    assert (Hb : - (5.128 * DEG_TO_RAD) <= b <= 5.128 * DEG_TO_RAD).
    { unfold b, degToRad, DEG_TO_RAD. split; nra. }
    assert (Hsum : degToRad (23.44 + 5.128) = e + 5.128 * DEG_TO_RAD)
      by (unfold e, degToRad; ring).
    unfold DEG_TO_RAD in *.
    assert (Hcb : 0 < cos b) by (apply cos_gt_0; lra).
    assert (Hse : 0 < sin e) by (apply sin_gt_0; lra).
    pose proof (SIN_bound l) as [L1 L2].
    assert (Hprod : 0 < cos b * sin e) by (apply Rmult_lt_0_compat; lra).
    apply Transit.asin_within; [rewrite Hsum; lra |].
    rewrite Hsum. split.
    + (* from below: sin (b - e) *)
      apply Rle_trans with (sin (b - e)).
      * rewrite <- sin_neg. apply sin_incr_1; lra.
      * rewrite sin_minus. nra.
    + apply Rle_trans with (sin (b + e)).
      * rewrite sin_plus. nra.
      * apply sin_incr_1; lra.
Qed.

(** X7: whatever the instant, the Sun's declination stays within the
    obliquity [degToRad 23.44] and the Moon's within
    [degToRad (23.44 + 5.128)]. *)
Theorem declinations_bounded (L d : R) :
  (- Sun.earthTiltRad <= Sun.getDeclination L <= Sun.earthTiltRad)
  /\ (- degToRad (23.44 + 5.128) <= Moon.dec (Moon.getMoonCoords d)
      <= degToRad (23.44 + 5.128)).
Proof. apply declination_bounds. Qed.

(** X8: converting degrees to radians and back does not return the angle but
    the angle times 0.01745329251 * 57.2957795131, which is below 1 by less
    than 0.0000000006. *)
Theorem degrees_round_trip (x : R) :
  radToDeg (degToRad x) = x * 0.999999999430599676881
  /\ Rabs (radToDeg (degToRad x) - x) <= 0.0000000006 * Rabs x
  /\ (x <> 0 -> radToDeg (degToRad x) <> x).
Proof.
  assert (H : radToDeg (degToRad x) = x * 0.999999999430599676881)
    by (unfold radToDeg, degToRad, RAD_TO_DEG, DEG_TO_RAD; lra).
  split; [exact H |]. rewrite H. split.
  - replace (x * 0.999999999430599676881 - x)
      with (x * -0.000000000569400323119) by lra.
    rewrite Rabs_mult, (Rabs_left (-0.000000000569400323119)) by lra.
    pose proof (Rabs_pos x). nra.
  - intros Hx Heq. apply Hx. lra.
Qed.

Lemma degrees_round_trip_witness :
  180 <> 0 /\ radToDeg (degToRad 180) <> 180.
Proof.
  assert (H : 180 <> 0) by lra.
  split; [exact H |].
  exact (proj2 (proj2 (degrees_round_trip 180)) H).
Defined.

(** X9: [toDays] counts days from 2000-01-01 12:00 UTC: it is 0 there, a
    date 86400000 ms later counts one more, and a later date counts more. *)
Theorem toDays_counts_days (date later : Date) :
  toDays epochJ2000 = 0
  /\ toDays (date + 86400000)%Z = toDays date + 1
  /\ ((date < later)%Z -> toDays date < toDays later).
Proof.
  unfold toDays, toJulian, getTime_of, dayMs, J1970, J2000, epochJ2000.
  repeat split.
  - lra.
  - rewrite plus_IZR. lra.
  - intros H. apply IZR_lt in H. lra.
Qed.

Lemma toDays_counts_days_witness :
  (0 < 1000)%Z /\ toDays 0%Z < toDays 1000%Z.
Proof.
  assert (H : (0 < 1000)%Z) by lia.
  split; [exact H |].
  exact (proj2 (proj2 (toDays_counts_days 0%Z 1000%Z)) H).
Defined.

(* ================================================================== *)
(** ** The steps of the gate, case by case *)
(* ================================================================== *)

Module Cases.

Lemma same_host_refl s : same_host s s.
Proof. repeat split. Qed.

Lemma same_host_trans s1 s2 s3 :
  same_host s1 s2 -> same_host s2 s3 -> same_host s1 s3.
Proof.
  unfold same_host. intros H1 H2.
  decompose [and] H1. decompose [and] H2. repeat split; congruence.
Qed.

Lemma set_isSearching_host o b s : same_host s (set_isSearching o b s).
Proof. destruct o; repeat split. Qed.

Lemma set_tilt_host a s : same_host s (set_tilt a s).
Proof. repeat split. Qed.

Lemma set_tilt_flags a s o : isSearching (set_tilt a s) o = isSearching s o.
Proof. destruct o; reflexivity. Qed.

(** [checkTilt] measures, stores and compares. *)
Lemma checkTilt_eq s :
  checkTilt s
  = (JS.gtb (Rabs (offsetAngle (transform s))) uprightThreshold,
     set_tilt (offsetAngle (transform s)) s).
Proof. reflexivity. Qed.

(** The two outcomes of [isReady]. *)
Lemma isReady_cases s :
  (isReady s = (false, s)
   \/ isReady s = (false, set_tilt (offsetAngle (transform s)) s)
      /\ uprightThreshold < Rabs (offsetAngle (transform s)))
  \/ (isReady s = (true, set_tilt (offsetAngle (transform s)) s)
      /\ Rabs (offsetAngle (transform s)) <= uprightThreshold).
Proof.
  unfold isReady. destruct (foundHeading s) as [h |]; [| auto].
  destruct (JS.truthy h); [| auto].
  destruct (checkTimeStamp s (foundHeadingTime s) headingLifetime); [| auto].
  rewrite checkTilt_eq.
  destruct (JS.gtb (Rabs (offsetAngle (transform s))) uprightThreshold) eqn:Hg.
  - left. right. split; [reflexivity |]. now apply JSFacts.gtb_true.
  - right. split; [reflexivity |].
    apply JSFacts.ltb_false in Hg. lra.
Qed.

Lemma isReady_host s : same_host s (snd (isReady s)).
Proof.
  destruct (isReady_cases s) as [[H | [H _]] | [H _]]; rewrite H;
    first [apply same_host_refl | apply set_tilt_host].
Qed.

Lemma isReady_flags s o : isSearching (snd (isReady s)) o = isSearching s o.
Proof.
  destruct (isReady_cases s) as [[H | [H _]] | [H _]]; rewrite H;
    first [reflexivity | apply set_tilt_flags].
Qed.

(** [interpretTrackingData] clears the flag of its orb and does nothing else
    to the state; it has exactly one effect. *)
Lemma interpret_state s rq :
  fst (interpretTrackingData s rq) = set_isSearching (orbType rq) false s.
Proof. unfold interpretTrackingData. break_tests; reflexivity. Qed.

Lemma interpret_effect s rq :
  snd (interpretTrackingData s rq) = [Throw "TypeError"]
  \/ exists info,
       snd (interpretTrackingData s rq) = [CallOnSuccess (onSuccess rq) info].
Proof.
  unfold interpretTrackingData. break_tests; cbn [snd]; eauto.
Qed.

(** The two outcomes of [onPositionFound]. *)
Lemma onPositionFound_cases p s rq :
  let rq' := set_foundPosition p rq in
  (fst (isReady s) = false
   /\ onPositionFound p s rq
      = (snd (isReady s), set_phase AwaitHeading rq', []))
  \/ (fst (isReady s) = true
      /\ onPositionFound p s rq
         = (set_isSearching (orbType rq) false (snd (isReady s)),
            set_phase Finished rq',
            snd (interpretTrackingData (snd (isReady s)) rq'))).
Proof.
  cbv zeta. unfold onPositionFound. destruct (isReady s) as [ready s1].
  cbn [fst snd]. destruct ready.
  - right. split; [reflexivity |].
    pose proof (interpret_state s1 (set_foundPosition p rq)) as Hs.
    destruct (interpretTrackingData s1 (set_foundPosition p rq)) as [s2 eff].
    cbn [fst snd] in *. rewrite Hs. reflexivity.
  - left. split; reflexivity.
Qed.

(** The same for the update callback that waits for the heading. *)
Lemma onUpdate_heading_cases rid s rq :
  nth_error (requests s) rid = Some rq -> phase rq = AwaitHeading ->
  (fst (isReady s) = false /\ onUpdate rid s = (snd (isReady s), []))
  \/ (fst (isReady s) = true
      /\ onUpdate rid s
         = (set_requests (store rid (set_phase Finished rq) (requests s))
              (set_isSearching (orbType rq) false (snd (isReady s))),
            snd (interpretTrackingData (snd (isReady s)) rq))).
Proof.
  intros Hn Hp. unfold onUpdate. rewrite Hn, Hp.
  pose proof (isReady_host s) as Hh.
  destruct (isReady s) as [ready s1]. cbn [fst snd] in *. destruct ready.
  - right. split; [reflexivity |].
    pose proof (interpret_state s1 rq) as Hs.
    destruct (interpretTrackingData s1 rq) as [s2 eff].
    cbn [fst snd] in *. rewrite Hs.
    assert (Hr : requests (set_isSearching (orbType rq) false s1) = requests s).
    { destruct (orbType rq); cbn; apply Hh. }
    rewrite Hr. reflexivity.
  - left. split; reflexivity.
Qed.

(** The closure at an index after [store]. *)
Lemma nth_store rid rq rs :
  (rid < List.length rs)%nat -> nth_error (store rid rq rs) rid = Some rq.
Proof.
  revert rid. induction rs as [| r rs IH]; intros rid H; cbn in H; [lia |].
  destruct rid; cbn; [reflexivity |]. apply IH. lia.
Qed.

Lemma nth_lt rid (rq : Request) rs :
  nth_error rs rid = Some rq -> (rid < List.length rs)%nat.
Proof. intros H. apply nth_error_Some. congruence. Qed.

End Cases.

Module Effects.

(** An effect of [onPositionFound] is the effect of the interpretation that
    followed a positive readiness check. *)
Lemma onPositionFound_effects p s rq e :
  In e (snd (onPositionFound p s rq)) ->
  fst (isReady s) = true
  /\ (e = Throw "TypeError"
      \/ exists info,
           e = CallOnSuccess (onSuccess rq) info
           /\ snd (interpretTrackingData (snd (isReady s))
                                         (set_foundPosition p rq))
              = [CallOnSuccess (onSuccess rq) info]).
Proof.
  destruct (Cases.onPositionFound_cases p s rq) as [[_ H] | [Hr H]];
    rewrite H; cbn [snd]; [intros [] |].
  split; [exact Hr |].
  destruct (Cases.interpret_effect (snd (isReady s)) (set_foundPosition p rq))
    as [He | [info He]]; rewrite He in *; destruct H0 as [<- | []]; eauto.
Qed.

Lemma requestUserPosition_effects rid s rq e :
  In e (snd (requestUserPosition rid s rq)) ->
  (e = GetCurrentPosition rid /\ foundPosition rq = None)
  \/ (fst (isReady s) = true
      /\ (e = Throw "TypeError"
          \/ exists p info,
               e = CallOnSuccess (onSuccess rq) info
               /\ snd (interpretTrackingData (snd (isReady s))
                                             (set_foundPosition p rq))
                  = [CallOnSuccess (onSuccess rq) info])).
Proof.
  unfold requestUserPosition. destruct (foundPosition rq) as [p |].
  - intros H. right. apply onPositionFound_effects in H.
    destruct H as [Hr [H | [info [H1 H2]]]]; split; eauto.
  - intros [<- | []]. left. split; reflexivity.
Qed.

Lemma getOrb_explained o a b s e :
  In e (snd (getOrb o a b s)) -> Explains s (Call o a b) e.
Proof.
  unfold getOrb. destruct a as [succ |].
  2:{ intros [<- | []]. eapply ex_noCallback. reflexivity. }
  destruct (isSearching s o) eqn:Hs.
  { destruct b as [f |]; [| intros []]. intros [<- | []].
    eapply ex_contended; [reflexivity | exact Hs]. }
  set (s1 := set_isSearching o true s).
  assert (Hn : now s1 = now s) by (destruct o; reflexivity).
  assert (Hr : requests s1 = requests s) by (destruct o; reflexivity).
  assert (Hl : locationService s1 = locationService s)
    by (destruct o; reflexivity).
  assert (Hfetch : forall s2 e0,
             now s2 = now s -> requests s2 = requests s ->
             JS.gtb (now s2) initialWait = true ->
             In e0 (snd (requestUserPosition (List.length (requests s2)) s2
                           (mkRequest o succ b None AwaitLensStart))) ->
             Explains s (Call o (Some succ) b) e0).
  { intros s2 e0 Hn2 Hr2 Hg Hin. unfold requestUserPosition in Hin.
    cbn [foundPosition] in Hin. destruct Hin as [<- | []]. rewrite Hr2.
    eapply ex_fetch_new; [reflexivity | exact Hs |].
    apply JSFacts.gtb_true in Hg. now rewrite <- Hn2. }
  destruct (locationService s1) eqn:Hsvc.
  - destruct (JS.gtb (now s1) initialWait) eqn:Hg; [| intros []].
    pose proof (Hfetch s1 e Hn Hr Hg) as Hf.
    destruct (requestUserPosition _ s1 _) as [[s2 rq2] eff].
    cbn [snd app] in *. exact Hf.
  - set (s1' := set_locationService true s1).
    destruct (JS.gtb (now s1') initialWait) eqn:Hg.
    + pose proof (Hfetch s1' e Hn Hr Hg) as Hf.
      destruct (requestUserPosition _ s1' _) as [[s2 rq2] eff].
      cbn [snd app] in *. intros [<- | Hin]; [| now apply Hf].
      eapply ex_created; [reflexivity | exact Hs | congruence].
    + intros [<- | []].
      eapply ex_created; [reflexivity | exact Hs | congruence].
Qed.

(** Every effect of a step is explained. *)
Lemma step_explained s ev e : In e (snd (step s ev)) -> Explains s ev e.
Proof.
  destruct ev; cbn [step].
  - apply (getOrb_explained OrbType.Sun).
  - apply (getOrb_explained OrbType.Moon).
  - intros [].
  - unfold onUpdate.
    destruct (nth_error (requests s) rid) as [rq |] eqn:Hn; [| intros []].
    destruct (phase rq) eqn:Hp; try (intros []; fail).
    + destruct (JS.gtb (now s) initialWait) eqn:Hg; [| intros []].
      pose proof (requestUserPosition_effects rid s rq e) as Hq.
      destruct (requestUserPosition rid s rq) as [[s2 rq2] eff].
      cbn [snd] in *. intros Hin.
      destruct (Hq Hin) as [[-> Hnone] | [Hr [-> | [p [info [-> Hi]]]]]].
      * eapply ex_fetch_waited; eauto. now apply JSFacts.gtb_true.
      * apply ex_type_error.
      * apply (ex_success s (UpdateEvent rid) rid rq (set_foundPosition p rq));
          [now left | exact Hn | unfold active; now rewrite Hp | exact Hr
          | right; eauto | exact Hi].
    + destruct (Cases.onUpdate_heading_cases rid s rq Hn Hp)
        as [[_ H] | [Hr H]];
        unfold onUpdate in H; rewrite Hn, Hp in H; rewrite H; cbn [snd];
        [intros [] |].
      destruct (Cases.interpret_effect (snd (isReady s)) rq)
        as [He | [info He]]; rewrite He; intros [<- | []].
      * apply ex_type_error.
      * apply (ex_success s (UpdateEvent rid) rid rq rq);
          [now left | exact Hn | unfold active; now rewrite Hp | exact Hr
          | now left | exact He].
  - destruct (locationService s); intros [].
  - unfold onPosition.
    destruct (nth_error (requests s) rid) as [rq |] eqn:Hn; [| intros []].
    destruct (phase rq) eqn:Hp; try (intros []; fail).
    pose proof (onPositionFound_effects p s rq e) as Hq.
    destruct (onPositionFound p s rq) as [[s2 rq2] eff]. cbn [snd] in *.
    intros Hin. destruct (Hq Hin) as [Hr [-> | [info [-> Hi]]]].
    + apply ex_type_error.
    + apply (ex_success s (PositionFound rid p) rid rq (set_foundPosition p rq));
        [right; eauto | exact Hn | unfold active; now rewrite Hp | exact Hr
        | right; eauto | exact Hi].
  - unfold onPositionError.
    destruct (nth_error (requests s) rid) as [rq |] eqn:Hn; [| intros []].
    destruct (phase rq) eqn:Hp; try (intros []; fail).
    cbn [snd]. destruct (onFail rq) as [f |] eqn:Hf; [| intros []].
    intros [<- | []]. eapply ex_failed; eauto.
  - destruct (specs s); intros [].
  - destruct (specs s); intros [].
Qed.

(** An effect of a run is the effect of one of its steps. *)
Lemma run_effect_origin s evs e :
  In e (snd (run s evs)) ->
  exists evs1 ev evs2,
    evs = evs1 ++ ev :: evs2
    /\ In e (snd (step (fst (run s evs1)) ev)).
Proof.
  induction evs as [| ev evs IH] using rev_ind.
  - intros [].
  - rewrite Trace.run_snoc. cbn [snd]. intros Hin.
    apply in_app_or in Hin. destruct Hin as [Hin | Hin].
    + destruct (IH Hin) as [evs1 [ev1 [evs2 [E H]]]].
      exists evs1, ev1, (evs2 ++ [ev]). split; [| exact H].
      rewrite E, <- app_assoc. reflexivity.
    + exists evs, ev, []. split; [reflexivity | exact Hin].
Qed.

End Effects.



Module Fetched.

(** A call that is accepted after the initial wait, in full. *)
Lemma getOrb_fetches o succ f s :
  isSearching s o = false -> initialWait < now s ->
  requests (fst (getOrb o (Some succ) f s))
  = requests s ++ [mkRequest o succ f None AwaitPosition].
Proof.
  intros Hs Ht. unfold getOrb. rewrite Hs.
  set (s1 := set_isSearching o true s).
  assert (Hn : now s1 = now s) by (destruct o; reflexivity).
  assert (Hr : requests s1 = requests s) by (destruct o; reflexivity).
  destruct (locationService s1); cbn [now set_locationService requests];
    rewrite Hn, (proj2 (JSFacts.gtb_true _ _) Ht);
    unfold requestUserPosition;
    cbn [foundPosition fst set_requests requests set_locationService
         set_phase orbType onSuccess onFail];
    rewrite ?Hr; reflexivity.
Qed.

Lemma nth_last (rs : list Request) rq :
  nth_error (rs ++ [rq]) (List.length rs) = Some rq.
Proof.
  rewrite nth_error_app2 by lia. now rewrite Nat.sub_diag.
Qed.

End Fetched.

(** X11: the location service is asked for a position only when the clock
    is past [initialWait] = 1 s, and the closure the request is issued for
    then waits for the answer with no position of its own. *)
Theorem fetch_only_after_initial_wait (s : State) (ev : Event) (rid : nat) :
  In (GetCurrentPosition rid) (snd (step s ev)) ->
  1 < now s
  /\ exists rq,
       nth_error (requests (fst (step s ev))) rid = Some rq
       /\ phase rq = AwaitPosition /\ foundPosition rq = None.
Proof.
  intros Hin. pose proof (Effects.step_explained _ _ _ Hin) as Hx.
  inversion Hx as [| | | o succ f Hev Hs Ht Hrid
                   | rid' rq Hev Hn Hp Hnone Ht Hrid | | |]; subst.
  - split; [exact Ht |].
    exists (mkRequest o succ f None AwaitPosition).
    split; [| split; reflexivity].
    destruct o; cbn [Call step]; unfold getSun, getMoon;
      rewrite Fetched.getOrb_fetches by assumption; apply Fetched.nth_last.
  - split; [exact Ht |]. exists (set_phase AwaitPosition rq).
    split; [| split; [reflexivity | exact Hnone]].
    cbn [step]. unfold onUpdate. rewrite Hn, Hp.
    rewrite (proj2 (JSFacts.gtb_true _ _) Ht).
    unfold requestUserPosition. rewrite Hnone.
    cbn [fst set_requests requests]. apply Cases.nth_store.
    eapply Cases.nth_lt. exact Hn.
Qed.

Lemma fetch_only_after_initial_wait_witness :
  In (GetCurrentPosition 0)
     (snd (step (start false 2 0%Z uprightTransform) (GetSun (Some 1%nat) None)))
  /\ 1 < now (start false 2 0%Z uprightTransform).
Proof.
  assert (H : In (GetCurrentPosition 0)
                 (snd (step (start false 2 0%Z uprightTransform)
                            (GetSun (Some 1%nat) None)))).
  { cbn [step]. unfold getSun, getOrb, start. gate_eval.
    unfold requestUserPosition. gate_eval. right. left. reflexivity. }
  split; [exact H |].
  exact (proj1 (fetch_only_after_initial_wait _ _ _ H)).
Defined.

(* ================================================================== *)
(** ** What [onSuccess] is told *)
(* ================================================================== *)

Module Told.

(** The [info] of an interpretation, field by field. *)
Lemma interpret_info s rq cb info :
  snd (interpretTrackingData s rq) = [CallOnSuccess cb info] ->
  exists h p,
    foundHeading s = Some h /\ foundPosition rq = Some p
    /\ let s' := set_isSearching (orbType rq) false s in
       let sky :=
         OrbType.getPosition (orbType rq) (today s) (Geo.latitude p)
                             (Geo.longitude p) in
       info
       = Info.mk
           (rotateY
              (orbDirection
                 (match frontCameraFlip s with
                  | Some true => 180 - azimuth sky
                  | _ => azimuth sky
                  end)
                 (altitude sky))
              (- workingHeading s' h))
           (JS.atan2 (vx (forward (transform s))) (vz (forward (transform s))))
           (azimuth sky) (altitude sky) (distance sky)
           (workingHeading s' h)
           (Geo.latitude p) (Geo.longitude p)
           (Geo.horizontalAccuracy p) (Geo.verticalAccuracy p)
           (Geo.altitude p) (today s) (OrbType.name (orbType rq)).
Proof.
  unfold interpretTrackingData.
  assert (Hh : foundHeading (set_isSearching (orbType rq) false s)
               = foundHeading s) by (destruct (orbType rq); reflexivity).
  assert (Hf : frontCameraFlip (set_isSearching (orbType rq) false s)
               = frontCameraFlip s) by (destruct (orbType rq); reflexivity).
  assert (Ht : today (set_isSearching (orbType rq) false s) = today s)
    by (destruct (orbType rq); reflexivity).
  assert (Hr : transform (set_isSearching (orbType rq) false s) = transform s)
    by (destruct (orbType rq); reflexivity).
  rewrite Hh. destruct (foundHeading s) as [h |]; [| discriminate].
  destruct (foundPosition rq) as [p |]; [| discriminate].
  cbn [snd]. rewrite Hf, Ht, Hr. intros H. injection H as _ <-.
  exists h, p. repeat split.
Qed.

(** The working heading after a positive readiness check. *)
Lemma workingHeading_measured o s h :
  let a := offsetAngle (transform s) in
  workingHeading (set_isSearching o false (set_tilt a s)) h
  = uncorrectedHeading s h - 37.5 * a.
Proof.
  cbv zeta. unfold workingHeading, uncorrectedHeading.
  assert (Hf : frontCameraFlip
                 (set_isSearching o false
                    (set_tilt (offsetAngle (transform s)) s))
               = frontCameraFlip s) by (destruct o; reflexivity).
  assert (Hs : specs (set_isSearching o false
                        (set_tilt (offsetAngle (transform s)) s))
               = specs s) by (destruct o; reflexivity).
  assert (Ht : tilt (set_isSearching o false
                       (set_tilt (offsetAngle (transform s)) s))
               = Some (offsetAngle (transform s)))
    by (destruct o; reflexivity).
  rewrite Hf, Hs, Ht. unfold flipHeadingOnSpectacles. rewrite andb_true_r.
  set (a := offsetAngle (transform s)).
  assert (Hremap : remap a (- uprightThreshold) uprightThreshold
                         (- tiltHeadingOffset / 2 * uprightThreshold)
                         (tiltHeadingOffset / 2 * uprightThreshold)
                   = 37.5 * a).
  { unfold remap, uprightThreshold, tiltHeadingOffset.
    replace (0.7 - - (0.7)) with 1.4 by lra. lra. }
  unfold JS.truthy. destruct (Req_dec_T a 0) as [-> | Hne].
  - destruct (frontCameraFlip s) as [[|] |], (specs s); lra.
  - rewrite Hremap.
    destruct (frontCameraFlip s) as [[|] |], (specs s); lra.
Qed.

(** A success of a step, unfolded: the readiness check was positive, the
    tilt was measured within the threshold, and the interpretation ran on
    the measured state. *)
Lemma success_unfolded s ev cb info :
  In (CallOnSuccess cb info) (snd (step s ev)) ->
  exists rid rq rq',
    nth_error (requests s) rid = Some rq /\ cb = onSuccess rq
    /\ orbType rq' = orbType rq
    /\ Rabs (offsetAngle (transform s)) <= uprightThreshold
    /\ snd (interpretTrackingData
              (set_tilt (offsetAngle (transform s)) s) rq')
       = [CallOnSuccess cb info].
Proof.
  intros Hin. pose proof (Effects.step_explained _ _ _ Hin) as Hx.
  inversion Hx as [| | | | | rid rq rq' info' Hev Hn Ha Hr Hrq Hi |  |]; subst.
  exists rid, rq, rq'. split; [exact Hn |]. split; [reflexivity |].
  split; [destruct Hrq as [-> | [p ->]]; reflexivity |].
  destruct (Cases.isReady_cases s) as [[H | [H _]] | [H Hb]];
    rewrite H in Hr, Hi; cbn [fst snd] in *; try discriminate.
  split; assumption.
Qed.

End Told.

(** X12: the [info] handed to [onSuccess] is consistent with itself: its
    azimuth, altitude and distance are the outputs of the solver of its own
    body for its own date, [userLatitude] and [userLongitude]; the date is
    the host's date at the step, and the callback is the [onSuccess] of a
    call for that body. *)
Theorem info_is_the_solver_output
  (s : State) (ev : Event) (cb : Callback) (info : Info.t) :
  In (CallOnSuccess cb info) (snd (step s ev)) ->
  exists rid rq,
    nth_error (requests s) rid = Some rq /\ cb = onSuccess rq
    /\ Info.name info = OrbType.name (orbType rq)
    /\ Info.date info = today s
    /\ let sky :=
         OrbType.getPosition (orbType rq) (Info.date info)
                             (Info.userLatitude info)
                             (Info.userLongitude info) in
       Info.azimuth info = azimuth sky
       /\ Info.altitude info = altitude sky
       /\ Info.distance info = distance sky.
Proof.
  intros Hin.
  destruct (Told.success_unfolded _ _ _ _ Hin)
    as [rid [rq [rq' [Hn [Hcb [Ho [_ Hi]]]]]]].
  destruct (Told.interpret_info _ _ _ _ Hi) as [h [p [_ [_ Hinfo]]]].
  cbv zeta in Hinfo. cbn [today set_tilt] in Hinfo.
  exists rid, rq. rewrite Hinfo, <- Ho. cbn. repeat split; assumption.
Qed.

Lemma info_is_the_solver_output_witness :
  exists info,
    In (CallOnSuccess 1%nat info)
       (snd (step (fst (run (start false 2 0%Z uprightTransform)
                            resolvingPrefix)) (UpdateEvent 0)))
    /\ Info.name info = "Sun"%string
    /\ Info.azimuth info
       = azimuth (getSunPosition (Info.date info) (Info.userLatitude info)
                                 (Info.userLongitude info)).
Proof.
  destruct Scenario.resolving_step as [info [Hstep _]].
  assert (Hin : In (CallOnSuccess 1%nat info)
                   (snd (step (fst (run (start false 2 0%Z uprightTransform)
                                        resolvingPrefix)) (UpdateEvent 0)))).
  { rewrite Hstep. left. reflexivity. }
  exists info. split; [exact Hin |].
  destruct (info_is_the_solver_output _ _ _ _ Hin)
    as [rid [rq [Hn [Hcb [Hname [_ [Haz _]]]]]]].
  rewrite Scenario.run_resolvingPrefix in Hn. cbn [fst] in Hn.
  unfold awaitingState in Hn. cbn [requests] in Hn.
  destruct rid as [| [| rid]]; cbn in Hn; try discriminate.
  injection Hn as <-. cbn in Hname, Haz. split; assumption.
Defined.

Module Ranges.


End Ranges.



(** X14: the heading reported to [onSuccess] is the stored heading, mirrored
    on the front camera and turned by 180 on Spectacles, less 37.5 times the
    tilt angle measured at that step; the tilt is within the threshold of
    0.7, so the correction is at most 26.25 degrees. *)
Theorem heading_correction_is_bounded
  (s : State) (ev : Event) (cb : Callback) (info : Info.t) :
  In (CallOnSuccess cb info) (snd (step s ev)) ->
  exists h,
    foundHeading s = Some h
    /\ let a := offsetAngle (transform s) in
       Rabs a <= 0.7
       /\ Info.userHeading info = uncorrectedHeading s h - 37.5 * a
       /\ Rabs (Info.userHeading info - uncorrectedHeading s h) <= 26.25.
Proof.
  intros Hin.
  destruct (Told.success_unfolded _ _ _ _ Hin)
    as [rid [rq [rq' [_ [_ [_ [Ha Hi]]]]]]].
  destruct (Told.interpret_info _ _ _ _ Hi) as [h [p [Hh [_ Hinfo]]]].
  cbv zeta in Hinfo. exists h. split; [exact Hh |]. cbv zeta.
  unfold uprightThreshold in Ha. split; [exact Ha |].
  assert (Hu : Info.userHeading info
               = uncorrectedHeading s h - 37.5 * offsetAngle (transform s)).
  { rewrite Hinfo. cbn [Info.userHeading].
    apply Told.workingHeading_measured. }
  split; [exact Hu |]. rewrite Hu.
  replace (uncorrectedHeading s h - 37.5 * offsetAngle (transform s)
           - uncorrectedHeading s h)
    with (- (37.5 * offsetAngle (transform s))) by ring.
  rewrite Rabs_Ropp, Rabs_mult, (Rabs_pos_eq 37.5) by lra. lra.
Qed.

Lemma heading_correction_is_bounded_witness :
  exists info,
    In (CallOnSuccess 1%nat info)
       (snd (step (fst (run (start false 2 0%Z uprightTransform)
                            resolvingPrefix)) (UpdateEvent 0)))
    /\ exists h,
         foundHeading (fst (run (start false 2 0%Z uprightTransform)
                                resolvingPrefix)) = Some h
         /\ Rabs (Info.userHeading info
                  - uncorrectedHeading
                      (fst (run (start false 2 0%Z uprightTransform)
                                resolvingPrefix)) h) <= 26.25.
Proof.
  destruct Scenario.resolving_step as [info [Hstep _]].
  assert (Hin : In (CallOnSuccess 1%nat info)
                   (snd (step (fst (run (start false 2 0%Z uprightTransform)
                                        resolvingPrefix)) (UpdateEvent 0)))).
  { rewrite Hstep. left. reflexivity. }
  exists info. split; [exact Hin |].
  destruct (heading_correction_is_bounded _ _ _ _ Hin) as [h [Hh [_ [_ Hb]]]].
  exists h. split; assumption.
Defined.

(* ================================================================== *)
(** ** The moves of the gate *)
(* ================================================================== *)

Module Move.

Lemma set_locationService_id s :
  locationService s = true -> set_locationService true s = s.
Proof. destruct s. cbn. intros ->. reflexivity. Qed.

Lemma interpret_counts s rq :
  creations (snd (interpretTrackingData s rq)) = 0%nat
  /\ (successes (snd (interpretTrackingData s rq)) <= 1)%nat.
Proof.
  destruct (Cases.interpret_effect s rq) as [H | [info H]]; rewrite H;
    cbn; lia.
Qed.

Lemma same_caller_found p rq ph :
  same_caller rq (set_phase ph (set_foundPosition p rq)).
Proof. repeat split. Qed.

Lemma same_caller_phase rq ph : same_caller rq (set_phase ph rq).
Proof. repeat split. Qed.

Lemma isReady_requests_eq s : requests (snd (isReady s)) = requests s.
Proof. apply (Cases.isReady_host s). Qed.

(** The move of [onPositionFound], for the closure stored at [rid]. *)
Lemma onPositionFound_moves ev rid p s rq :
  (ev = UpdateEvent rid \/ exists p0, ev = PositionFound rid p0) ->
  nth_error (requests s) rid = Some rq -> active rq = true ->
  let r := onPositionFound p s rq in
  Moves s ev
        (set_requests (store rid (snd (fst r)) (requests (fst (fst r))))
                      (fst (fst r)))
        (snd r).
Proof.
  intros Hev Hn Ha. cbv zeta.
  destruct (Cases.onPositionFound_cases p s rq) as [[_ H] | [_ H]];
    rewrite H; cbn [fst snd].
  - rewrite isReady_requests_eq.
    eapply mv_wait; eauto using same_caller_found.
  - assert (Hr : requests (set_isSearching (orbType rq) false (snd (isReady s)))
                 = requests s).
    { rewrite <- (isReady_requests_eq s).
      destruct (orbType rq); reflexivity. }
    rewrite Hr.
    destruct (interpret_counts (snd (isReady s)) (set_foundPosition p rq)).
    eapply mv_resolve; eauto using same_caller_found.
Qed.

Lemma requestUserPosition_moves ev rid s rq :
  (ev = UpdateEvent rid \/ exists p0, ev = PositionFound rid p0) ->
  nth_error (requests s) rid = Some rq -> active rq = true ->
  let r := requestUserPosition rid s rq in
  Moves s ev
        (set_requests (store rid (snd (fst r)) (requests (fst (fst r))))
                      (fst (fst r)))
        (snd r).
Proof.
  intros Hev Hn Ha. cbv zeta. unfold requestUserPosition.
  destruct (foundPosition rq) as [p |].
  - now apply onPositionFound_moves.
  - cbn [fst snd]. eapply mv_wait; eauto using same_caller_phase.
Qed.

Lemma getOrb_moves o a b s :
  Moves s (Call o a b) (fst (getOrb o a b s)) (snd (getOrb o a b s)).
Proof.
  unfold getOrb. destruct a as [succ |].
  2:{ cbn [fst snd]. apply mv_nothing; try reflexivity.
      destruct o; intros [H | H]; discriminate. }
  destruct (isSearching s o) eqn:Hs.
  { cbn [fst snd]. apply mv_nothing.
    - destruct b; reflexivity.
    - destruct b; reflexivity.
    - destruct o; intros [H | H]; discriminate. }
  set (s1 := set_isSearching o true s).
  assert (Hl : locationService s1 = locationService s)
    by (destruct o; reflexivity).
  assert (Hmove : forall ph created,
             ph <> Finished ->
             creations created
             = (if locationService s then 0%nat else 1%nat) ->
             forall eff, successes eff = 0%nat -> creations eff = 0%nat ->
             successes created = 0%nat ->
             Moves s (Call o (Some succ) b)
                   (set_requests (requests s1 ++ [mkRequest o succ b None ph])
                      (set_locationService true s1))
                   (created ++ eff)).
  { intros ph created Hph Hc eff He1 He2 Hc2.
    assert (Hr : requests s1 = requests s) by (destruct o; reflexivity).
    rewrite Hr. eapply mv_accept; eauto.
    - clear - He1 Hc2. induction created as [| e l IH]; [exact He1 |].
      destruct e; cbn in *; try discriminate; auto.
    - rewrite <- Hc. clear - He2.
      induction created as [| e l IH]; [exact He2 |].
      destruct e; cbn in *; auto. }
  destruct (locationService s1) eqn:Hsvc.
  - rewrite <- Hl in Hmove.
    rewrite (set_locationService_id s1 Hsvc) in Hmove.
    destruct (JS.gtb (now s1) initialWait).
    + apply (Hmove AwaitPosition []
                   ltac:(discriminate) eq_refl
                   [GetCurrentPosition (List.length (requests s1))]
                   eq_refl eq_refl eq_refl).
    + apply (Hmove AwaitLensStart [] ltac:(discriminate) eq_refl []
                   eq_refl eq_refl eq_refl).
  - rewrite <- Hl in Hmove.
    destruct (JS.gtb (now (set_locationService true s1)) initialWait).
    + apply (Hmove AwaitPosition [CreateLocationService]
                   ltac:(discriminate) eq_refl
                   [GetCurrentPosition
                      (List.length (requests (set_locationService true s1)))]
                   eq_refl eq_refl eq_refl).
    + apply (Hmove AwaitLensStart [CreateLocationService]
                   ltac:(discriminate) eq_refl [] eq_refl eq_refl eq_refl).
Qed.

(** Every step makes one of the moves. *)
Lemma step_moves s ev : Moves s ev (fst (step s ev)) (snd (step s ev)).
Proof.
  destruct ev; cbn [step].
  - apply (getOrb_moves OrbType.Sun).
  - apply (getOrb_moves OrbType.Moon).
  - cbn [fst snd]. eapply mv_host. reflexivity.
  - unfold onUpdate.
    destruct (nth_error (requests s) rid) as [rq |] eqn:Hn.
    2:{ apply mv_nothing; try reflexivity. intros [H | H]; discriminate. }
    destruct (phase rq) eqn:Hp.
    + destruct (JS.gtb (now s) initialWait).
      * pose proof (requestUserPosition_moves (UpdateEvent rid) rid s rq)
          as Hm.
        cbv zeta in Hm.
        destruct (requestUserPosition rid s rq) as [[s2 rq2] eff].
        cbn [fst snd] in *. apply Hm; auto.
        unfold active. now rewrite Hp.
      * apply mv_nothing; try reflexivity. intros [H | H]; discriminate.
    + apply mv_nothing; try reflexivity. intros [H | H]; discriminate.
    + destruct (Cases.onUpdate_heading_cases rid s rq Hn Hp)
        as [[_ H] | [_ H]];
        unfold onUpdate in H; rewrite Hn, Hp in H; rewrite H; cbn [fst snd].
      * eapply mv_measure. reflexivity.
      * destruct (interpret_counts (snd (isReady s)) rq).
        eapply mv_resolve; eauto using same_caller_phase.
        unfold active. now rewrite Hp.
    + apply mv_nothing; try reflexivity. intros [H | H]; discriminate.
  - destruct (locationService s); cbn [fst snd].
    + eapply mv_heading. reflexivity.
    + apply mv_nothing; try reflexivity. intros [H | H]; discriminate.
  - unfold onPosition.
    destruct (nth_error (requests s) rid) as [rq |] eqn:Hn.
    2:{ apply mv_nothing; try reflexivity. intros [H | H]; discriminate. }
    destruct (phase rq) eqn:Hp;
      try (apply mv_nothing; try reflexivity; intros [H | H]; discriminate).
    pose proof (onPositionFound_moves (PositionFound rid p) rid p s rq) as Hm.
    cbv zeta in Hm.
    destruct (onPositionFound p s rq) as [[s2 rq2] eff].
    cbn [fst snd] in *. apply Hm; eauto.
    unfold active. now rewrite Hp.
  - unfold onPositionError.
    destruct (nth_error (requests s) rid) as [rq |] eqn:Hn.
    2:{ apply mv_nothing; try reflexivity. intros [H | H]; discriminate. }
    destruct (phase rq) eqn:Hp;
      try (apply mv_nothing; try reflexivity; intros [H | H]; discriminate).
    cbn [fst snd]. eapply mv_fail; eauto; destruct (onFail rq); reflexivity.
  - destruct (specs s) eqn:Hs; cbn [fst snd].
    + apply mv_nothing; auto.
    + apply (mv_camera s CameraBackEvent false); auto.
  - destruct (specs s) eqn:Hs; cbn [fst snd].
    + apply mv_nothing; auto.
    + apply (mv_camera s CameraFrontEvent true); auto.
Qed.

End Move.

(* ================================================================== *)
(** ** Invariants of a run *)
(* ================================================================== *)

Module Count.

Lemma creations_app l1 l2 :
  creations (l1 ++ l2) = (creations l1 + creations l2)%nat.
Proof.
  induction l1 as [| e l IH]; [reflexivity |].
  destruct e; cbn; rewrite ?IH; reflexivity.
Qed.

Lemma successes_app l1 l2 :
  successes (l1 ++ l2) = (successes l1 + successes l2)%nat.
Proof.
  induction l1 as [| e l IH]; [reflexivity |].
  destruct e; cbn; rewrite ?IH; reflexivity.
Qed.

Lemma calls_snoc evs ev :
  calls (evs ++ [ev]) = (calls evs + calls [ev])%nat.
Proof.
  induction evs as [| e l IH]; [reflexivity |].
  change ((e :: l) ++ [ev]) with (e :: (l ++ [ev])).
  destruct e as [[?|] ? | [?|] ? | | | | | | |]; cbn [calls];
    rewrite ?IH; reflexivity.
Qed.

Lemma calls_Call o succ f : calls [Call o (Some succ) f] = 1%nat.
Proof. destruct o; reflexivity. Qed.

Lemma pending_app o rs rq :
  pending o (rs ++ [rq]) = (pending o rs + counts o rq)%nat.
Proof. induction rs as [| r l IH]; cbn; [lia | rewrite IH; lia]. Qed.

Lemma pending_store o rid rq rq' rs :
  nth_error rs rid = Some rq ->
  (pending o (store rid rq' rs) + counts o rq
   = pending o rs + counts o rq')%nat.
Proof.
  revert rid. induction rs as [| r l IH]; intros rid H.
  - destruct rid; discriminate.
  - destruct rid; cbn in H.
    + injection H as ->. cbn. lia.
    + cbn. specialize (IH rid H). lia.
Qed.

Lemma finished_app rs rq :
  finished (rs ++ [rq])
  = (finished rs + if active rq then 0 else 1)%nat.
Proof. induction rs as [| r l IH]; cbn; [lia | rewrite IH; lia]. Qed.

Lemma finished_store rid rq rq' rs :
  nth_error rs rid = Some rq ->
  (finished (store rid rq' rs) + (if active rq then 0 else 1)
   = finished rs + if active rq' then 0 else 1)%nat.
Proof.
  revert rid. induction rs as [| r l IH]; intros rid H.
  - destruct rid; discriminate.
  - destruct rid; cbn in H.
    + injection H as ->. cbn. lia.
    + cbn. specialize (IH rid H). lia.
Qed.

Lemma finished_le rs : (finished rs <= List.length rs)%nat.
Proof.
  induction rs as [| r l IH]; cbn; [lia |]. destruct (active r); lia.
Qed.

Lemma store_length rid (rq : Request) rs :
  List.length (store rid rq rs) = List.length rs.
Proof.
  revert rid. induction rs as [| r l IH]; intros rid; [now destruct rid |].
  destruct rid; cbn; [reflexivity | now rewrite IH].
Qed.

Lemma Forall_store (P : Request -> Prop) rid rq rs :
  Forall P rs -> P rq -> Forall P (store rid rq rs).
Proof.
  intros Hrs Hrq. revert rid. induction Hrs as [| r l Hr Hl IH]; intros rid.
  - destruct rid; constructor.
  - destruct rid; cbn [store]; constructor; auto.
Qed.

Lemma counts_same o rq rq' :
  same_caller rq rq' -> active rq = active rq' -> counts o rq = counts o rq'.
Proof. intros [Ho _] Ha. unfold counts. now rewrite Ho, Ha. Qed.

Lemma counts_finished o rq : phase rq = Finished -> counts o rq = 0%nat.
Proof.
  intros H. unfold counts, active. rewrite H. now rewrite andb_false_r.
Qed.

Lemma counts_own rq : active rq = true -> counts (orbType rq) rq = 1%nat.
Proof.
  intros H. unfold counts. rewrite H. now destruct (orbType rq).
Qed.

Lemma counts_other o rq : orbType rq <> o -> counts o rq = 0%nat.
Proof.
  intros H. unfold counts.
  destruct (orbType rq), o; try reflexivity; now elim H.
Qed.

Lemma active_finished rq : phase rq = Finished -> active rq = false.
Proof. intros H. unfold active. now rewrite H. Qed.

Lemma isSearching_set o o' b s :
  isSearching (set_isSearching o' b s) o
  = if orb_eqb o' o then b else isSearching s o.
Proof. destruct o, o'; reflexivity. Qed.

Lemma orb_eqb_eq o o' : orb_eqb o o' = true <-> o = o'.
Proof. destruct o, o'; split; intros H; try reflexivity; discriminate. Qed.

End Count.

Module Run.

(** The flags and closures of the state a readiness check leaves. *)
Lemma isReady_keeps s :
  (forall o, isSearching (snd (isReady s)) o = isSearching s o)
  /\ requests (snd (isReady s)) = requests s
  /\ locationService (snd (isReady s)) = locationService s
  /\ specs (snd (isReady s)) = specs s
  /\ frontCameraFlip (snd (isReady s)) = frontCameraFlip s.
Proof.
  split; [apply Cases.isReady_flags |].
  pose proof (Cases.isReady_host s) as H. unfold same_host in H. tauto.
Qed.

(** One closure per orb, one step on. *)
Lemma step_exclusive s ev :
  (forall o, (pending o (requests s) <= 1)%nat
             /\ (isSearching s o = false -> pending o (requests s) = 0%nat)) ->
  forall o,
    (pending o (requests (fst (step s ev))) <= 1)%nat
    /\ (isSearching (fst (step s ev)) o = false ->
        pending o (requests (fst (step s ev))) = 0%nat).
Proof.
  intros Inv o. destruct (Inv o) as [I1 I2].
  destruct (isReady_keeps s) as [Kf [Kr _]].
  pose proof (Move.step_moves s ev) as Hm.
  set (s' := fst (step s ev)) in *. set (e' := snd (step s ev)) in *.
  clearbody s' e'.
  destruct Hm as [effs Hc Hs Hcam | t d tr Hev | h Hev | b Hev Hsp
                   | o' succ f ph effs Hev Hidle Hph Hs Hc | rid Hev
                   | rid rq rq' s0 effs Hev Hn Ha Ha' Hsame Hs0 Hc Hs
                   | rid rq rq' effs Hev Hn Ha Hp Hsame Hc Hs
                   | rid rq err effs Hev Hn Hp Hc Hs]; cbn [requests set_requests].
  - auto.
  - replace (isSearching (set_host t d tr s) o) with (isSearching s o)
      by (destruct o; reflexivity). auto.
  - replace (isSearching (set_heading h (now s) s) o) with (isSearching s o)
      by (destruct o; reflexivity). auto.
  - replace (isSearching (set_frontCameraFlip b s) o) with (isSearching s o)
      by (destruct o; reflexivity). auto.
  - rewrite Count.pending_app.
    replace (isSearching _ o)
      with (if orb_eqb o' o then true else isSearching s o)
      by (destruct o, o'; reflexivity).
    destruct (orb_eqb o' o) eqn:He.
    + apply Count.orb_eqb_eq in He. subst o'.
      destruct (Inv o) as [_ J]. rewrite (J Hidle).
      assert (Hcnt : counts o (mkRequest o succ f None ph) = 1%nat).
      { apply (Count.counts_own (mkRequest o succ f None ph)).
        unfold active. cbn. destruct ph; try reflexivity. now elim Hph. }
      rewrite Hcnt. split; [lia | discriminate].
    + assert (Hcnt : counts o (mkRequest o' succ f None ph) = 0%nat).
      { apply Count.counts_other. cbn. intros ->.
        destruct o; discriminate. }
      rewrite Hcnt, Nat.add_0_r. auto.
  - rewrite Kr, Kf. auto.
  - pose proof (Count.pending_store o rid rq rq' (requests s) Hn) as Hst.
    rewrite (Count.counts_same o rq rq') in Hst by (auto; congruence).
    assert (Hf : isSearching (set_requests (store rid rq' (requests s)) s0) o
                 = isSearching s o).
    { destruct Hs0 as [-> | ->]; [destruct o; reflexivity |].
      rewrite <- (Kf o). destruct o; reflexivity. }
    rewrite Hf. split; [lia |]. intros H. specialize (I2 H). lia.
  - pose proof (Count.pending_store o rid rq rq' (requests s) Hn) as Hst.
    rewrite (Count.counts_finished o rq' Hp) in Hst.
    assert (Hf : isSearching
                   (set_requests (store rid rq' (requests s))
                      (set_isSearching (orbType rq) false (snd (isReady s)))) o
                 = if orb_eqb (orbType rq) o then false else isSearching s o).
    { rewrite <- (Kf o). destruct o, (orbType rq); reflexivity. }
    rewrite Hf. split; [lia |].
    destruct (orb_eqb (orbType rq) o) eqn:He.
    + apply Count.orb_eqb_eq in He. subst o.
      rewrite (Count.counts_own rq Ha) in Hst. intros _. lia.
    + intros H. specialize (I2 H). lia.
  - pose proof (Count.pending_store o rid rq (set_phase Finished rq)
                  (requests s) Hn) as Hst.
    rewrite (Count.counts_finished o (set_phase Finished rq) eq_refl) in Hst.
    replace (isSearching _ o) with (isSearching s o)
      by (destruct o; reflexivity).
    split; [lia |]. intros H. specialize (I2 H). lia.
Qed.

End Run.

(** X15: at most one request per body is in flight: in every state of a run
    from the start, at most one closure of an orb still has something
    registered, and none has while the orb is not marked as searched. *)
Theorem one_request_per_orb
  (specs : bool) (t0 : R) (d0 : Date) (tr0 : Transform)
  (evs : list Event) (o : OrbType.t) :
  let s := fst (run (start specs t0 d0 tr0) evs) in
  (pending o (requests s) <= 1)%nat
  /\ (isSearching s o = false -> pending o (requests s) = 0%nat).
Proof.
  cbv zeta. revert o. induction evs as [| ev evs IH] using rev_ind.
  - intros o. cbn. split; [lia | reflexivity].
  - intros o. rewrite Trace.run_snoc. cbn [fst].
    apply Run.step_exclusive. exact IH.
Qed.

Module Service.

(** The service and the count of its creations, one step on. *)
Lemma step_service s ev :
  (creations (snd (step s ev)) + (if locationService s then 1 else 0)
   = if locationService (fst (step s ev)) then 1 else 0)%nat.
Proof.
  destruct (Run.isReady_keeps s) as [_ [_ [Kl _]]].
  pose proof (Move.step_moves s ev) as Hm.
  set (s' := fst (step s ev)) in *. set (e' := snd (step s ev)) in *.
  clearbody s' e'.
  destruct Hm as [effs Hc Hs Hcam | t d tr Hev | h Hev | b Hev Hsp
                   | o' succ f ph effs Hev Hidle Hph Hs Hc | rid Hev
                   | rid rq rq' s0 effs Hev Hn Ha Ha' Hsame Hs0 Hc Hs
                   | rid rq rq' effs Hev Hn Ha Hp Hsame Hc Hs
                   | rid rq err effs Hev Hn Hp Hc Hs];
    cbn [locationService set_requests set_host set_heading
         set_frontCameraFlip set_locationService creations];
    rewrite ?Hc; try reflexivity.
  - destruct (locationService s); reflexivity.
  - now rewrite Kl.
  - destruct Hs0 as [-> | ->]; [reflexivity | now rewrite Kl].
  - replace (locationService
               (set_isSearching (orbType rq) false (snd (isReady s))))
      with (locationService s)
      by (rewrite <- Kl; destruct (orbType rq); reflexivity).
    reflexivity.
Qed.

End Service.

(** X16: the location service is created at most once in a run from the
    start: the run holds one creation when its last state has the service
    and none when it has not. *)
Theorem service_created_once
  (specs : bool) (t0 : R) (d0 : Date) (tr0 : Transform) (evs : list Event) :
  let r := run (start specs t0 d0 tr0) evs in
  (creations (snd r) <= 1)%nat
  /\ creations (snd r) = (if locationService (fst r) then 1 else 0)%nat.
Proof.
  cbv zeta.
  assert (H : creations (snd (run (start specs t0 d0 tr0) evs))
              = (if locationService (fst (run (start specs t0 d0 tr0) evs))
                 then 1 else 0)%nat).
  { induction evs as [| ev evs IH] using rev_ind; [reflexivity |].
    rewrite Trace.run_snoc. cbn [fst snd].
    rewrite Count.creations_app, IH, Nat.add_comm. apply Service.step_service. }
  split; [| exact H]. rewrite H. destruct (locationService _); lia.
Qed.

Module Callers.

(** The call a closure comes from is in the history. *)
Lemma step_origin (evs : list Event) s ev :
  Forall (fun rq =>
            In (Call (orbType rq) (Some (onSuccess rq)) (onFail rq)) evs)
         (requests s) ->
  Forall (fun rq =>
            In (Call (orbType rq) (Some (onSuccess rq)) (onFail rq))
               (evs ++ [ev]))
         (requests (fst (step s ev))).
Proof.
  intros Inv.
  assert (Inv' : Forall (fun rq =>
                           In (Call (orbType rq) (Some (onSuccess rq))
                                    (onFail rq)) (evs ++ [ev]))
                        (requests s)).
  { eapply Forall_impl; [| exact Inv]. intros rq H. apply in_or_app. now left. }
  assert (Hstore : forall rid rq rq',
             nth_error (requests s) rid = Some rq -> same_caller rq rq' ->
             Forall (fun rq =>
                       In (Call (orbType rq) (Some (onSuccess rq)) (onFail rq))
                          (evs ++ [ev]))
                    (store rid rq' (requests s))).
  { intros rid rq rq' Hn [Ho [Hs Hf]].
    assert (Hrq : In (Call (orbType rq') (Some (onSuccess rq')) (onFail rq'))
                     (evs ++ [ev])).
    { rewrite Ho, Hs, Hf.
      pose proof (proj1 (Forall_forall _ _) Inv') as HIn. apply HIn.
      eapply nth_error_In. exact Hn. }
    now apply Count.Forall_store. }
  destruct (Run.isReady_keeps s) as [_ [Kr _]].
  pose proof (Move.step_moves s ev) as Hm.
  set (s' := fst (step s ev)) in *. set (e' := snd (step s ev)) in *.
  clearbody s' e'.
  destruct Hm as [effs Hc Hs Hcam | t d tr Hev | h Hev | b Hev Hsp
                   | o' succ f ph effs Hev Hidle Hph Hs Hc | rid Hev
                   | rid rq rq' s0 effs Hev Hn Ha Ha' Hsame Hs0 Hc Hs
                   | rid rq rq' effs Hev Hn Ha Hp Hsame Hc Hs
                   | rid rq err effs Hev Hn Hp Hc Hs];
    cbn [requests set_requests set_host set_heading set_frontCameraFlip];
    try exact Inv'.
  - apply Forall_app. split; [exact Inv' |]. constructor; [| constructor].
    cbn [orbType onSuccess onFail]. subst ev. apply in_or_app. right. now left.
  - now rewrite Kr.
  - eapply Hstore; eassumption.
  - eapply Hstore; eassumption.
  - eapply Hstore; [eassumption | repeat split].
Qed.

Lemma run_origin specs t0 d0 tr0 evs :
  Forall (fun rq =>
            In (Call (orbType rq) (Some (onSuccess rq)) (onFail rq)) evs)
         (requests (fst (run (start specs t0 d0 tr0) evs))).
Proof.
  induction evs as [| ev evs IH] using rev_ind; [constructor |].
  rewrite Trace.run_snoc. cbn [fst]. now apply step_origin.
Qed.

End Callers.

(** X17: a run from the start calls only functions it was given: every
    [onSuccess] it calls was passed as [onSuccess] to a [getSun] or [getMoon]
    of the run, and every [onFail] it calls was passed as [onFail] to one. *)
Theorem only_given_callbacks_are_called
  (specs : bool) (t0 : R) (d0 : Date) (tr0 : Transform) (evs : list Event) :
  let effs := snd (run (start specs t0 d0 tr0) evs) in
  (forall cb info, In (CallOnSuccess cb info) effs ->
                   exists o f, In (Call o (Some cb) f) evs)
  /\ (forall f err, In (CallOnFail f err) effs ->
                    exists o cb, In (Call o (Some cb) (Some f)) evs).
Proof.
  cbv zeta.
  assert (Hrq : forall evs1 ev evs2 rid rq,
             evs = evs1 ++ ev :: evs2 ->
             nth_error (requests (fst (run (start specs t0 d0 tr0) evs1))) rid
             = Some rq ->
             In (Call (orbType rq) (Some (onSuccess rq)) (onFail rq)) evs).
  { intros evs1 ev evs2 rid rq E Hn.
    pose proof (Callers.run_origin specs t0 d0 tr0 evs1) as Ho.
    rewrite Forall_forall in Ho. rewrite E. apply in_or_app. left.
    apply Ho. eapply nth_error_In. exact Hn. }
  split.
  - intros cb info Hin.
    destruct (Effects.run_effect_origin _ _ _ Hin) as [evs1 [ev [evs2 [E H]]]].
    pose proof (Effects.step_explained _ _ _ H) as Hx.
    inversion Hx as [| | | | | rid rq rq' info' Hev Hn Ha Hr Hrq' Hi | |];
      subst cb.
    exists (orbType rq), (onFail rq). eapply Hrq; eassumption.
  - intros f err Hin.
    destruct (Effects.run_effect_origin _ _ _ Hin) as [evs1 [ev [evs2 [E H]]]].
    pose proof (Effects.step_explained _ _ _ H) as Hx.
    inversion Hx as [| o succ f' Hev Hs | | | | |
                     | rid rq f' err' Hev Hn Hp Hf]; subst.
    + exists o, succ. apply in_or_app. right. now left.
    + exists (orbType rq), (onSuccess rq). rewrite <- Hf.
      eapply Hrq; [reflexivity | eassumption].
Qed.

Module Tally.

Lemma step_tally s ev :
  (successes (snd (step s ev)) + finished (requests s)
   <= finished (requests (fst (step s ev))))%nat
  /\ (List.length (requests (fst (step s ev)))
      <= List.length (requests s) + calls [ev])%nat.
Proof.
  destruct (Run.isReady_keeps s) as [_ [Kr _]].
  pose proof (Move.step_moves s ev) as Hm.
  set (s' := fst (step s ev)) in *. set (e' := snd (step s ev)) in *.
  clearbody s' e'.
  destruct Hm as [effs Hc Hs Hcam | t d tr Hev | h Hev | b Hev Hsp
                   | o' succ f ph effs Hev Hidle Hph Hs Hc | rid Hev
                   | rid rq rq' s0 effs Hev Hn Ha Ha' Hsame Hs0 Hc Hs
                   | rid rq rq' effs Hev Hn Ha Hp Hsame Hc Hs
                   | rid rq err effs Hev Hn Hp Hc Hs];
    cbn [requests set_requests set_host set_heading set_frontCameraFlip
         successes];
    rewrite ?Hs, ?Kr, ?Count.store_length; try (split; lia).
  - rewrite Count.finished_app, length_app. subst ev.
    rewrite Count.calls_Call. cbn [List.length].
    assert (Hact : active (mkRequest o' succ f None ph) = true).
    { unfold active. cbn. destruct ph; try reflexivity. now elim Hph. }
    rewrite Hact. split; lia.
  - pose proof (Count.finished_store rid rq rq' (requests s) Hn) as Hst.
    rewrite Ha, Ha' in Hst. split; lia.
  - pose proof (Count.finished_store rid rq rq' (requests s) Hn) as Hst.
    rewrite Ha, (Count.active_finished rq' Hp) in Hst. split; lia.
  - pose proof (Count.finished_store rid rq (set_phase Finished rq)
                  (requests s) Hn) as Hst.
    assert (Ha : active rq = true) by (unfold active; now rewrite Hp).
    rewrite Ha in Hst. cbn in Hst. split; lia.
Qed.

End Tally.

(** X18: [onSuccess] is called at most once per accepted call: in a run from
    the start the calls of [onSuccess] are no more than the closures that
    have finished, which are no more than the closures, which are no more
    than the calls of [getSun] and [getMoon] that gave an [onSuccess]. *)
Theorem successes_bounded_by_calls
  (specs : bool) (t0 : R) (d0 : Date) (tr0 : Transform) (evs : list Event) :
  let r := run (start specs t0 d0 tr0) evs in
  (successes (snd r) <= finished (requests (fst r)))%nat
  /\ (finished (requests (fst r)) <= List.length (requests (fst r)))%nat
  /\ (List.length (requests (fst r)) <= calls evs)%nat.
Proof.
  cbv zeta. split; [| split; [apply Count.finished_le |]].
  - induction evs as [| ev evs IH] using rev_ind; [cbn; lia |].
    rewrite Trace.run_snoc. cbn [fst snd]. rewrite Count.successes_app.
    pose proof (Tally.step_tally (fst (run (start specs t0 d0 tr0) evs)) ev)
      as [H _]. lia.
  - induction evs as [| ev evs IH] using rev_ind; [cbn; lia |].
    rewrite Trace.run_snoc. cbn [fst]. rewrite Count.calls_snoc.
    pose proof (Tally.step_tally (fst (run (start specs t0 d0 tr0) evs)) ev)
      as [_ H]. lia.
Qed.

Module Cam.

Lemma lastCamera_snoc evs ev :
  lastCamera (evs ++ [ev])
  = match ev with
    | CameraBackEvent => Some false
    | CameraFrontEvent => Some true
    | _ => lastCamera evs
    end.
Proof.
  induction evs as [| e l IH].
  - destruct ev; reflexivity.
  - change ((e :: l) ++ [ev]) with (e :: (l ++ [ev])).
    cbn [lastCamera]. rewrite IH.
    destruct ev; try reflexivity.
Qed.

(** The device and the camera flag, one step on. *)
Lemma step_camera s ev :
  specs (fst (step s ev)) = specs s
  /\ frontCameraFlip (fst (step s ev))
     = match ev with
       | CameraBackEvent => if specs s then frontCameraFlip s else Some false
       | CameraFrontEvent => if specs s then frontCameraFlip s else Some true
       | _ => frontCameraFlip s
       end.
Proof.
  destruct (Run.isReady_keeps s) as [_ [_ [_ [Ks Kc]]]].
  pose proof (Move.step_moves s ev) as Hm.
  set (s' := fst (step s ev)) in *. set (e' := snd (step s ev)) in *.
  clearbody s' e'.
  destruct Hm as [effs Hc Hs Hcam | t d tr Hev | h Hev | b Hev Hsp
                   | o' succ f ph effs Hev Hidle Hph Hs Hc | rid Hev
                   | rid rq rq' s0 effs Hev Hn Ha Ha' Hsame Hs0 Hc Hs
                   | rid rq rq' effs Hev Hn Ha Hp Hsame Hc Hs
                   | rid rq err effs Hev Hn Hp Hc Hs].
  - split; [reflexivity |].
    destruct ev; try reflexivity; rewrite Hcam by auto; reflexivity.
  - subst ev. split; reflexivity.
  - subst ev. split; reflexivity.
  - subst ev. cbn. rewrite Hsp. destruct b; split; reflexivity.
  - subst ev. destruct o'; split; reflexivity.
  - subst ev. split; assumption.
  - assert (H0 : specs s0 = specs s /\ frontCameraFlip s0 = frontCameraFlip s)
      by (destruct Hs0 as [-> | ->]; auto).
    destruct H0 as [A B]. cbn.
    destruct Hev as [-> | [p ->]]; split; assumption.
  - assert (A : specs (set_isSearching (orbType rq) false (snd (isReady s)))
                = specs s)
      by (rewrite <- Ks; destruct (orbType rq); reflexivity).
    assert (B : frontCameraFlip
                  (set_isSearching (orbType rq) false (snd (isReady s)))
                = frontCameraFlip s)
      by (rewrite <- Kc; destruct (orbType rq); reflexivity).
    cbn. destruct Hev as [-> | [p ->]]; split; assumption.
  - subst ev. split; reflexivity.
Qed.

End Cam.

(** X19: in a run from the start the device kind never changes, and
    [frontCameraFlip] is what the latest camera event announced; on
    Spectacles, where no camera event is bound, it stays undefined. *)
Theorem camera_follows_events
  (specs0 : bool) (t0 : R) (d0 : Date) (tr0 : Transform) (evs : list Event) :
  let s := fst (run (start specs0 t0 d0 tr0) evs) in
  specs s = specs0
  /\ frontCameraFlip s = if specs0 then None else lastCamera evs.
Proof.
  cbv zeta. induction evs as [| ev evs [IHs IHc]] using rev_ind.
  - cbn. destruct specs0; split; reflexivity.
  - rewrite Trace.run_snoc. cbn [fst].
    destruct (Cam.step_camera (fst (run (start specs0 t0 d0 tr0) evs)) ev)
      as [Hs Hc].
    rewrite Hs, Hc, IHs, IHc, Cam.lastCamera_snoc. split; [reflexivity |].
    destruct specs0, ev; reflexivity.
Qed.


Module Poll.

(** When [isReady] answers true. *)
Lemma isReady_true_iff s :
  fst (isReady s) = true
  <-> exists h t,
        foundHeading s = Some h /\ h <> 0
        /\ foundHeadingTime s = Some t /\ now s - t < headingLifetime
        /\ Rabs (offsetAngle (transform s)) <= uprightThreshold.
Proof.
  split.
  - intros Hr. destruct (isReady s) as [ready s1] eqn:E. cbn in Hr. subst.
    destruct (Resolve.isReady_true _ _ E) as [h [t [Hh [Ht [Hlt [Hne _]]]]]].
    exists h, t. repeat split; auto.
    destruct (Cases.isReady_cases s) as [[H | [H _]] | [_ Hb]];
      [rewrite E in H; discriminate .. | exact Hb].
  - intros [h [t [Hh [Hne [Ht [Hlt Hb]]]]]].
    unfold isReady. rewrite Hh, (proj2 (JSFacts.truthy_true h) Hne), Ht.
    unfold checkTimeStamp. rewrite (proj2 (JSFacts.ltb_true _ _) Hlt).
    rewrite Cases.checkTilt_eq.
    assert (Hg : JS.gtb (Rabs (offsetAngle (transform s))) uprightThreshold
                 = false) by (apply JSFacts.ltb_false; lra).
    rewrite Hg. reflexivity.
Qed.

End Poll.

(** X21: the update callback of a closure that waits for the heading, with
    its position found, resolves exactly when a nonzero heading is stored,
    stamped less than 0.15 s ago, and the tilt angle is within 0.7: then it
    calls [onSuccess] once, marks the closure finished and clears the flag of
    its orb; otherwise it has no effect on the outside and the closure keeps
    waiting. *)
Theorem poll_resolves_exactly_when_ready (s : State) (rid : nat) (rq : Request) :
  nth_error (requests s) rid = Some rq ->
  phase rq = AwaitHeading -> foundPosition rq <> None ->
  let ready :=
    exists h t,
      foundHeading s = Some h /\ h <> 0
      /\ foundHeadingTime s = Some t /\ now s - t < 0.15
      /\ Rabs (offsetAngle (transform s)) <= 0.7 in
  (ready ->
   (exists info, snd (onUpdate rid s) = [CallOnSuccess (onSuccess rq) info])
   /\ nth_error (requests (fst (onUpdate rid s))) rid
      = Some (set_phase Finished rq)
   /\ isSearching (fst (onUpdate rid s)) (orbType rq) = false)
  /\ (~ ready ->
      snd (onUpdate rid s) = []
      /\ nth_error (requests (fst (onUpdate rid s))) rid = Some rq).
Proof.
  intros Hn Hp Hpos. cbv zeta.
  pose proof (Poll.isReady_true_iff s) as Hiff.
  unfold headingLifetime, uprightThreshold in Hiff.
  destruct (Cases.onUpdate_heading_cases rid s rq Hn Hp) as [[Hr H] | [Hr H]];
    rewrite H; cbn [fst snd]; split.
  - intros Hready. apply Hiff in Hready. congruence.
  - intros _. split; [reflexivity |].
    now rewrite (proj1 (proj2 (Run.isReady_keeps s))).
  - intros _.
    destruct (proj1 Hiff Hr) as [h [t [Hh _]]].
    assert (Hh1 : foundHeading (snd (isReady s)) = Some h).
    { pose proof (Cases.isReady_host s) as Hs. unfold same_host in Hs.
      decompose [and] Hs. congruence. }
    split; [| split].
    + unfold interpretTrackingData.
      assert (Hset : foundHeading
                       (set_isSearching (orbType rq) false (snd (isReady s)))
                     = Some h) by (destruct (orbType rq); exact Hh1).
      rewrite Hset. destruct (foundPosition rq); [| now elim Hpos].
      cbn [snd]. eexists. reflexivity.
    + cbn [requests set_requests]. apply Cases.nth_store.
      eapply Cases.nth_lt. exact Hn.
    + destruct (orbType rq); reflexivity.
  - intros Hnot. elim Hnot. now apply Hiff.
Qed.

Lemma poll_resolves_exactly_when_ready_witness :
  nth_error (requests awaitingState) 0
  = Some (mkRequest OrbType.Sun 1%nat None (Some greenwich) AwaitHeading)
  /\ (exists info, snd (onUpdate 0 awaitingState) = [CallOnSuccess 1%nat info])
  /\ isSearching (fst (onUpdate 0 awaitingState)) OrbType.Sun = false.
Proof.
  assert (Hn : nth_error (requests awaitingState) 0
               = Some (mkRequest OrbType.Sun 1%nat None (Some greenwich)
                                 AwaitHeading)) by reflexivity.
  split; [exact Hn |].
  destruct (poll_resolves_exactly_when_ready awaitingState 0 _ Hn eq_refl
              ltac:(discriminate)) as [H _].
  assert (Hready : exists h t,
             foundHeading awaitingState = Some h /\ h <> 0
             /\ foundHeadingTime awaitingState = Some t
             /\ now awaitingState - t < 0.15
             /\ Rabs (offsetAngle (transform awaitingState)) <= 0.7).
  { exists 90, 2. cbn [foundHeading foundHeadingTime now transform
                      awaitingState].
    rewrite Scenario.offsetAngle_upright, Rabs_R0.
    repeat split; try reflexivity; lra. }
  destruct (H Hready) as [A [_ B]]. split; [exact A | exact B].
Defined.

(** X22: a closure that waited for the lens start never finds a position
    cached: in a run from the start, its update callback, run once the clock
    is past [initialWait], asks the location service for a position of its
    own. *)
Theorem waiting_closure_always_fetches
  (specs : bool) (t0 : R) (d0 : Date) (tr0 : Transform)
  (evs : list Event) (rid : nat) (rq : Request) :
  let s := fst (run (start specs t0 d0 tr0) evs) in
  nth_error (requests s) rid = Some rq ->
  phase rq = AwaitLensStart ->
  1 < now s ->
  foundPosition rq = None
  /\ snd (onUpdate rid s) = [GetCurrentPosition rid].
Proof.
  cbv zeta. intros Hn Hp Ht. split.
  - pose proof (Closures.nth_ok _ _ _ (Closures.run_ok specs t0 d0 tr0 evs) Hn)
      as Hok.
    unfold request_ok in Hok. now rewrite Hp in Hok.
  - apply (Closures.lens_start_fetches specs t0 d0 tr0 evs rid rq Hn Hp Ht).
Qed.

Lemma waiting_closure_always_fetches_witness :
  let s := fst (run (start false 0 0%Z uprightTransform)
                    [GetSun (Some 3%nat) None;
                     HostFrame 1.5 1000%Z uprightTransform]) in
  nth_error (requests s) 0
  = Some (mkRequest OrbType.Sun 3%nat None None AwaitLensStart)
  /\ 1 < now s
  /\ snd (onUpdate 0 s) = [GetCurrentPosition 0].
Proof.
  cbv zeta.
  assert (Hrun : fst (run (start false 0 0%Z uprightTransform)
                          [GetSun (Some 3%nat) None;
                           HostFrame 1.5 1000%Z uprightTransform])
                 = mkState 1.5 1000%Z uprightTransform false true false true
                           None None None None
                           [mkRequest OrbType.Sun 3%nat None None
                                      AwaitLensStart]).
  { unfold start. cbn [run step]. unfold getSun, getOrb. gate_eval.
    reflexivity. }
  assert (Hn : nth_error
                 (requests (fst (run (start false 0 0%Z uprightTransform)
                                     [GetSun (Some 3%nat) None;
                                      HostFrame 1.5 1000%Z uprightTransform])))
                 0
               = Some (mkRequest OrbType.Sun 3%nat None None AwaitLensStart))
    by (rewrite Hrun; reflexivity).
  assert (Ht : 1 < now (fst (run (start false 0 0%Z uprightTransform)
                                 [GetSun (Some 3%nat) None;
                                  HostFrame 1.5 1000%Z uprightTransform])))
    by (rewrite Hrun; cbn [now]; lra).
  split; [exact Hn |]. split; [exact Ht |].
  exact (proj2 (waiting_closure_always_fetches false 0 0%Z uprightTransform
                  _ 0%nat _ Hn eq_refl Ht)).
Defined.
